(** * Whale Wallet policy engine: a shallow embedding and its properties

    The development follows the Python package [app.policy_engine]:

    - [rules/base.py]      : [PolicyContext], [PolicyDecision], [PolicyRule]
    - [rules/velocity.py]  : [VelocityRule]
    - [rules/whitelist.py] : [WhitelistRule]
    - [rules/timelock.py]  : [TimelockRule]
    - [executor.py]        : [DecisionType], [ExecutionResult],
                             [TransactionContext], [PolicyExecutor]
    - [evaluator.py]       : [PolicyEvaluator]

    Modelling conventions.

    - A [Decimal] amount of a transaction is an exact rational ([Qc]); a
      limit read from a rule configuration is a [Decimal] that may also be
      [Infinity] (the default [float("inf")] of an absent key).  Sums and
      differences are exact, as they are in Python while the operands fit
      the 28 significant digits of the decimal context.
    - A Python [int] is a [Z]; [x | None] is [option x].
    - The per-rule [config] dictionary is a record with one optional field
      per key the built-in rules read; an absent key is [None], and a key
      that is present holds a value of its documented type (amounts are
      numbers, hours are integers, switches are booleans).
    - A coroutine is the function it computes: the rules and the executor
      never suspend on anything but each other.
    - [evaluate] may raise: its result is an [outcome], and the executor's
      [try]/[except Exception] is a match on it.
    - [list(set(xs))] is [elements (list_to_set xs)]: a duplicate-free list
      whose order is not specified.
    - Logging calls have no influence on any returned value and are left
      out, as is the wall-clock field [evaluation_time_ms]. *)

From stdpp Require Import gmap strings list numbers pretty sorting.
From Stdlib Require Import QArith Qcanon.

Open Scope Z_scope.

(** ** Decimal amounts *)

Inductive Decimal : Type :=
  | Finite (q : Qc)
  | Infinity.

Module Decimal.

(** [amount > limit] for a finite amount and a limit that may be infinite. *)
Definition gt (amount : Qc) (limit : Decimal) : bool :=
  match limit with
  | Finite l => bool_decide (l < amount)%Qc
  | Infinity => false
  end.

(** [limit - amount]. *)
Definition sub (limit : Decimal) (amount : Qc) : Decimal :=
  match limit with
  | Finite l => Finite (l - amount)%Qc
  | Infinity => Infinity
  end.

(** Python's [max(a, b)] returns its first argument unless the second is
    strictly greater. *)
Definition max (a b : Decimal) : Decimal :=
  match a, b with
  | Finite x, Finite y => if bool_decide (x < y)%Qc then b else a
  | Finite _, Infinity => b
  | Infinity, _ => a
  end.

Definition zero : Decimal := Finite 0%Qc.

(** Python's [min(a, b)] for a running minimum [a] and a number [b]: its
    first argument unless the second is strictly smaller. *)
Definition min (a : Decimal) (b : Qc) : Decimal :=
  match a with
  | Finite x => if bool_decide (b < x)%Qc then Finite b else a
  | Infinity => Finite b
  end.

Definition of_Z (z : Z) : Qc := Q2Qc (inject_Z z).

End Decimal.

(** ** Dates and times

    A [datetime] is kept as its proleptic Gregorian ordinal (what
    [toordinal()] returns) and its time of day.  [weekday()] is computed
    from the ordinal the way CPython does. *)

Record datetime : Type := {
  ordinal : Z;
  hour : Z;
  minute : Z;
  second : Z;
}.

(** 0 = Monday, ..., 5 = Saturday, 6 = Sunday. *)
Definition weekday (t : datetime) : Z := (ordinal t + 6) `mod` 7.

(** ** What the engine takes from the Python runtime

    [format_usd d] is [format(d, ",.2f")] and [astimezone t tz] is
    [t.astimezone(ZoneInfo(tz))], [None] when either call raises. *)

Class Runtime : Type := {
  format_usd : Decimal → string;
  astimezone : datetime → string → option datetime;
}.

(** [known_timezone tz] tells whether [ZoneInfo(tz)] returns a timezone
    rather than raising. *)
Class TimezoneDatabase : Type := {
  known_timezone : string → bool;
}.

(** ** executor.py: the transaction context *)

Record TransactionContext : Type := {
  chain : string;
  to_address : string;
  value_native : Qc;
  value_usd : Qc;
  data : option string;
  user_id : string;
  user_tier : string;
  daily_outflow_usd : Qc;
  is_new_address : bool;
  address_in_whitelist : bool;
  current_time : datetime;
  user_timezone : string;
  duress_mode_active : bool;
  biometric_verified : bool;
  is_contract_call : bool;
  contract_verified : bool;
  function_name : option string;
}.

(** ** rules/base.py *)

Record PolicyContext : Type := {
  transaction : TransactionContext;
  ctx_user_tier : string;
  ctx_current_time : datetime;
  recent_transactions : list (gmap string string);
  whitelist : list string;
}.

Record PolicyDecision : Type := {
  allowed : bool;
  require_2fa : bool;
  delay_seconds : option Z;
  warnings : list string;
  required_actions : list string;
  reason : string;
}.

Module PolicyDecision.

(** [cls(allowed=True, warnings=warnings or [])] *)
Definition allow (ws : option (list string)) : PolicyDecision :=
  {| allowed := true; require_2fa := false; delay_seconds := None;
     warnings := default [] ws; required_actions := []; reason := "" |}.

Definition block (why : string) : PolicyDecision :=
  {| allowed := false; require_2fa := false; delay_seconds := None;
     warnings := []; required_actions := []; reason := why |}.

Definition delay (seconds : Z) (why : string) : PolicyDecision :=
  {| allowed := true; require_2fa := false; delay_seconds := Some seconds;
     warnings := []; required_actions := []; reason := why |}.

Definition require_verification (action : string) : PolicyDecision :=
  {| allowed := true; require_2fa := true; delay_seconds := None;
     warnings := []; required_actions := [action]; reason := "" |}.

End PolicyDecision.

(** The keys of a rule's [config] dictionary. *)
Record Config : Type := {
  max_daily_usd : option Qc;
  max_per_tx_usd : option Qc;
  require_2fa_above_usd : option Qc;
  delay_hours_above_usd : option Qc;
  delay_hours : option Z;
  mode : option string;
  require_2fa_for_new : option bool;
  quarantine_hours_for_new : option Z;
  block_start_hour : option Z;
  block_end_hour : option Z;
  timezone : option string;
  block_weekends : option bool;
}.

(** The empty dictionary [{}]. *)
Definition empty_config : Config :=
  {| max_daily_usd := None; max_per_tx_usd := None;
     require_2fa_above_usd := None; delay_hours_above_usd := None;
     delay_hours := None; mode := None; require_2fa_for_new := None;
     quarantine_hours_for_new := None; block_start_hour := None;
     block_end_hour := None; timezone := None; block_weekends := None |}.

(** The result of a call that may raise an [Exception]. *)
Inductive outcome (A : Type) : Type :=
  | Returns (a : A)
  | Raises (message : string).
Arguments Returns {A} a.
Arguments Raises {A} message.

(** A [PolicyRule] instance: its attributes and its [evaluate] method. *)
Record PolicyRule : Type := {
  name : string;
  config : Config;
  priority : Z;
  evaluate : PolicyContext → outcome PolicyDecision;
}.

(** Truthiness of an [int | None], a [bool] read with [.get] and a list. *)
Definition truthy_int (o : option Z) : bool :=
  match o with
  | Some z => negb (z =? 0)
  | None => false
  end.

Definition truthy_bool (o : option bool) : bool := default false o.

(** Truthiness of a [str | None] and of a number read with [.get]. *)
Definition truthy_str (o : option string) : bool :=
  match o with
  | Some s => negb (String.eqb s "")
  | None => false
  end.

Definition truthy_number (o : option Qc) : bool :=
  match o with
  | Some q => negb (bool_decide (q = 0%Qc))
  | None => false
  end.

Definition truthy_list {A : Type} (l : list A) : bool :=
  match l with
  | [] => false
  | _ :: _ => true
  end.

(** [s[:10]]; a destination address is ASCII, one character a byte. *)
Definition prefix10 (s : string) : string := String.substring 0 10 s.


(** ** rules/velocity.py *)

Module VelocityRule.

Definition evaluate `{Runtime} (self_config : Config) (context : PolicyContext)
    : outcome PolicyDecision :=
  let tx := transaction context in
  let max_daily := from_option Finite Infinity (max_daily_usd self_config) in
  let max_per_tx := from_option Finite Infinity (max_per_tx_usd self_config) in
  let require_2fa_above := require_2fa_above_usd self_config in
  let delay_above := delay_hours_above_usd self_config in
  (* Check per-transaction limit *)
  if Decimal.gt (value_usd tx) max_per_tx then
    Returns (PolicyDecision.block
      ("Transaction amount $" +:+ format_usd (Finite (value_usd tx)) +:+
       " exceeds per-transaction limit of $" +:+ format_usd max_per_tx))
  else
  (* Check daily limit *)
  let projected_daily := (daily_outflow_usd tx + value_usd tx)%Qc in
  if Decimal.gt projected_daily max_daily then
    let remaining := Decimal.sub max_daily (daily_outflow_usd tx) in
    Returns (PolicyDecision.block
      ("Transaction would exceed daily limit. Remaining today: $" +:+
       format_usd (Decimal.max remaining Decimal.zero)))
  else
  (* Check if 2FA is required; all checks passed otherwise *)
  let check_2fa :=
    match require_2fa_above with
    | Some twofa_threshold =>
        if Decimal.gt (value_usd tx) (Finite twofa_threshold) then
          Returns (PolicyDecision.require_verification "2fa_required")
        else Returns (PolicyDecision.allow None)
    | None => Returns (PolicyDecision.allow None)
    end in
  (* Check if delay is required *)
  match delay_above with
  | Some delay_threshold =>
      if Decimal.gt (value_usd tx) (Finite delay_threshold) then
        let delay_hours := default 24 (delay_hours self_config) in
        let delay_seconds := delay_hours * 3600 in
        Returns (PolicyDecision.delay delay_seconds
          ("Transactions above $" +:+ format_usd (Finite delay_threshold) +:+
           " require a " +:+ pretty delay_hours +:+ "-hour delay"))
      else check_2fa
  | None => check_2fa
  end.

(** The [except] branches ("... must be a valid number") answer values
    that [Decimal] cannot read; a number is always read. *)
Definition validate_config (self_config : Config) : list string :=
  let errors := [] in
  let errors :=
    match max_daily_usd self_config with
    | Some val =>
        if bool_decide (val <= 0)%Qc
        then errors ++ ["max_daily_usd must be positive"] else errors
    | None => errors
    end in
  let errors :=
    match max_per_tx_usd self_config with
    | Some val =>
        if bool_decide (val <= 0)%Qc
        then errors ++ ["max_per_tx_usd must be positive"] else errors
    | None => errors
    end in
  errors.

End VelocityRule.

Definition VelocityRule `{Runtime} (name : string) (config : Config)
    (priority : Z) : PolicyRule :=
  {| name := name; config := config; priority := priority;
     evaluate := VelocityRule.evaluate config |}.

(** ** rules/whitelist.py *)

Module WhitelistRule.

Definition evaluate (self_config : Config) (context : PolicyContext)
    : outcome PolicyDecision :=
  let tx := transaction context in
  let mode := default "warn_unknown" (mode self_config) in
  let require_2fa_new := truthy_bool (require_2fa_for_new self_config) in
  let quarantine_hours := quarantine_hours_for_new self_config in
  let is_whitelisted := address_in_whitelist tx in
  let is_new := is_new_address tx in
  if is_whitelisted then
    (* Whitelisted address - always allow *)
    Returns (PolicyDecision.allow None)
  else if is_new then
    if String.eqb mode "block_unknown" then
      Returns (PolicyDecision.block
        ("Address " +:+ prefix10 (to_address tx) +:+
         "... is not in your whitelist. Add it to whitelist first."))
    else
    (* Warn mode - allow with conditions *)
    let warnings :=
      ["This is a new address not in your whitelist: " +:+
       prefix10 (to_address tx) +:+ "..."] in
    if truthy_int quarantine_hours then
      let hours := default 0 quarantine_hours in
      Returns {| allowed := true; require_2fa := false;
                 delay_seconds := Some (hours * 3600);
                 warnings := warnings; required_actions := [];
                 reason := "New address requires " +:+ pretty hours +:+
                           "h quarantine" |}
    else if require_2fa_new then
      Returns {| allowed := true; require_2fa := true;
                 delay_seconds := None;
                 warnings := warnings;
                 required_actions := ["2fa_required"];
                 reason := "2FA required for new address" |}
    else
      (* Just warn *)
      Returns (PolicyDecision.allow (Some warnings))
  else
    (* Known address but not whitelisted - allow with warning *)
    Returns (PolicyDecision.allow
      (Some ["Consider adding frequently used addresses to your whitelist"])).

(** An integer passes the [isinstance(quarantine, (int, float))] test. *)
Definition validate_config (self_config : Config) : list string :=
  let errors := [] in
  let mode := mode self_config in
  let errors :=
    if truthy_str mode &&
       negb (bool_decide (default "" mode ∈ ["block_unknown"; "warn_unknown"]))
    then errors ++ ["mode must be 'block_unknown' or 'warn_unknown'"]
    else errors in
  let quarantine := quarantine_hours_for_new self_config in
  let errors :=
    match quarantine with
    | Some quarantine =>
        if quarantine <? 0
        then errors ++ ["quarantine_hours_for_new must be a positive number"]
        else errors
    | None => errors
    end in
  errors.

End WhitelistRule.

Definition WhitelistRule (name : string) (config : Config) (priority : Z)
    : PolicyRule :=
  {| name := name; config := config; priority := priority;
     evaluate := WhitelistRule.evaluate config |}.

(** ** rules/timelock.py *)

Module TimelockRule.

Definition _is_in_blocked_period (current start end_ : Z) : bool :=
  if start <=? end_ then
    (* Normal range (e.g., 09:00 - 17:00) *)
    (start <=? current) && (current <? end_)
  else
    (* Overnight range (e.g., 23:00 - 06:00) *)
    (current >=? start) || (current <? end_).

Definition evaluate `{Runtime} (self_config : Config) (context : PolicyContext)
    : outcome PolicyDecision :=
  let start_hour := block_start_hour self_config in
  let end_hour := block_end_hour self_config in
  let timezone_str := default "UTC" (timezone self_config) in
  let block_weekends := truthy_bool (block_weekends self_config) in
  (* Get current time in user's timezone *)
  let current :=
    match astimezone (ctx_current_time context) timezone_str with
    | Some converted => converted
    | None => ctx_current_time context
    end in
  let current_hour := hour current in
  let current_weekday := weekday current in
  (* Check weekend block *)
  if block_weekends && (current_weekday >=? 5) then
    Returns (PolicyDecision.block
      "Transactions are blocked on weekends. Try again on Monday.")
  else
  (* Check hour block *)
  match start_hour, end_hour with
  | Some start_hour, Some end_hour =>
      if _is_in_blocked_period current_hour start_hour end_hour then
        (* Calculate when block ends *)
        let hours_until :=
          if end_hour >? current_hour then end_hour - current_hour
          else (24 - current_hour) + end_hour in
        Returns (PolicyDecision.block
          ("Transactions are blocked between " +:+ pretty start_hour +:+
           ":00 and " +:+ pretty end_hour +:+ ":00 (" +:+ timezone_str +:+
           "). Try again in ~" +:+
           pretty hours_until +:+ " hours."))
      else Returns (PolicyDecision.allow None)
  | _, _ =>
      (* All time checks passed *)
      Returns (PolicyDecision.allow None)
  end.

(** An integer passes the [isinstance(start, int)] test. *)
Definition validate_config `{TimezoneDatabase} (self_config : Config)
    : list string :=
  let errors := [] in
  let start := block_start_hour self_config in
  let end_ := block_end_hour self_config in
  let errors :=
    match start with
    | Some start =>
        if negb ((0 <=? start) && (start <=? 23))
        then errors ++ ["block_start_hour must be 0-23"] else errors
    | None => errors
    end in
  let errors :=
    match end_ with
    | Some end_ =>
        if negb ((0 <=? end_) && (end_ <=? 23))
        then errors ++ ["block_end_hour must be 0-23"] else errors
    | None => errors
    end in
  let errors :=
    if negb (bool_decide (bool_decide (start = None)
                          = bool_decide (end_ = None)))
    then errors ++
         ["block_start_hour and block_end_hour must both be set or both be unset"]
    else errors in
  let tz := timezone self_config in
  let errors :=
    if truthy_str tz then
      if known_timezone (default "" tz) then errors
      else errors ++ ["Invalid timezone: " +:+ default "" tz]
    else errors in
  errors.

End TimelockRule.

Definition TimelockRule `{Runtime} (name : string) (config : Config)
    (priority : Z) : PolicyRule :=
  {| name := name; config := config; priority := priority;
     evaluate := TimelockRule.evaluate config |}.

(** ** executor.py *)

Inductive DecisionType : Type :=
  | ALLOW
  | BLOCK
  | DELAY
  | REQUIRE_2FA
  | WARN.

#[global] Instance DecisionType_eq_dec : EqDecision DecisionType.
Proof. solve_decision. Defined.

Record ExecutionResult : Type := {
  decision : DecisionType;
  blocking_rule : option string;
  result_delay_seconds : option Z;
  result_warnings : list string;
  result_required_actions : list string;
  rules_evaluated : list string;
}.

(** The dataclass constructor followed by [__post_init__]: a [DELAY] without
    a (non-zero) delay gets the default of 24 hours. *)
Definition new_ExecutionResult (decision : DecisionType)
    (blocking_rule : option string) (delay_seconds : option Z)
    (warnings required_actions rules_evaluated : list string)
    : ExecutionResult :=
  {| decision := decision;
     blocking_rule := blocking_rule;
     result_delay_seconds :=
       if bool_decide (decision = DELAY) && negb (truthy_int delay_seconds)
       then Some 86400 else delay_seconds;
     result_warnings := warnings;
     result_required_actions := required_actions;
     rules_evaluated := rules_evaluated |}.

(** A rule class, called as [rule_class(name=.., config=.., priority=..)]. *)
Definition RuleClass : Type := string → Config → Z → PolicyRule.

Record PolicyExecutor : Type := {
  rules : list PolicyRule;
  _rule_registry : gmap string RuleClass;
}.

(** One record of the policy configuration: a dictionary read with [.get]
    at five keys, each of which may be absent. *)
Record Policy : Type := {
  policy_rule_type : option string;
  policy_name : option string;
  policy_config : option Config;
  policy_priority : option Z;
  policy_is_active : option bool;
}.

(** [list.sort(key=lambda r: r.priority, reverse=True)]: a stable sort by
    descending key.  Any stable sort computes the same list; the model is
    insertion sort, each element going in front of the first one whose key is
    not greater than its own. *)
Fixpoint insert_by_priority (r : PolicyRule) (sorted : list PolicyRule)
    : list PolicyRule :=
  match sorted with
  | [] => [r]
  | r' :: rest =>
      if priority r <? priority r' then r' :: insert_by_priority r rest
      else r :: r' :: rest
  end.

Fixpoint sort_by_priority_reverse (l : list PolicyRule) : list PolicyRule :=
  match l with
  | [] => []
  | r :: rest => insert_by_priority r (sort_by_priority_reverse rest)
  end.

(** The dedupe [list(set(xs))]. *)
Definition list_set (xs : list string) : list string :=
  elements (list_to_set xs : gset string).

(** The local variables of [_aggregate_decisions]. *)
Record AggregateState : Type := {
  final_decision : DecisionType;
  agg_blocking_rule : option string;
  agg_delay_seconds : option Z;
  all_warnings : list string;
  all_actions : list string;
  agg_rules_evaluated : list string;
}.

Module PolicyExecutor.

(** [PolicyExecutor(rules)]: [rules or []] and an empty registry. *)
Definition new (rules : option (list PolicyRule)) : PolicyExecutor :=
  {| rules := default [] rules; _rule_registry := ∅ |}.

Definition register_rule (self : PolicyExecutor) (rule_type : string)
    (rule_class : RuleClass) : PolicyExecutor :=
  {| rules := rules self;
     _rule_registry := <[rule_type := rule_class]> (_rule_registry self) |}.

(** The body of the loop of [load_rules_from_config]: [rules] is
    [self.rules] so far. *)
Definition load_rule (registry : gmap string RuleClass)
    (rules : list PolicyRule) (policy : Policy) : list PolicyRule :=
  if negb (default true (policy_is_active policy)) then rules
  else
    match policy_rule_type policy with
    | None => rules (* None is not a key of the registry *)
    | Some rule_type =>
        match registry !! rule_type with
        | None => rules
        | Some rule_class =>
            let rule :=
              rule_class (default rule_type (policy_name policy))
                         (default empty_config (policy_config policy))
                         (default 0 (policy_priority policy)) in
            rules ++ [rule]
        end
    end.

Definition load_rules_from_config (self : PolicyExecutor)
    (policies : list Policy) : PolicyExecutor :=
  let rules := foldl (load_rule (_rule_registry self)) [] policies in
  (* Sort by priority (highest first) *)
  {| rules := sort_by_priority_reverse rules;
     _rule_registry := _rule_registry self |}.

(** The body of the loop of [_aggregate_decisions]. *)
Definition aggregate_step (st : AggregateState)
    (rd : PolicyRule * PolicyDecision) : AggregateState :=
  let '(rule, d) := rd in
  let rules_evaluated := agg_rules_evaluated st ++ [name rule] in
  let all_warnings := all_warnings st ++ warnings d in
  let all_actions := all_actions st ++ required_actions d in
  if negb (allowed d) then
    (* This rule blocks the transaction *)
    if bool_decide (final_decision st ≠ BLOCK) then
      {| final_decision := BLOCK; agg_blocking_rule := Some (name rule);
         agg_delay_seconds := agg_delay_seconds st;
         all_warnings := all_warnings; all_actions := all_actions;
         agg_rules_evaluated := rules_evaluated |}
    else
      {| final_decision := final_decision st;
         agg_blocking_rule := agg_blocking_rule st;
         agg_delay_seconds := agg_delay_seconds st;
         all_warnings := all_warnings; all_actions := all_actions;
         agg_rules_evaluated := rules_evaluated |}
  else if truthy_int (delay_seconds d) then
    (* This rule requires a delay *)
    let seconds := default 0 (delay_seconds d) in
    if bool_decide (final_decision st ≠ BLOCK) then
      if match agg_delay_seconds st with
         | None => true
         | Some current => seconds >? current
         end
      then
        {| final_decision := DELAY; agg_blocking_rule := Some (name rule);
           agg_delay_seconds := Some seconds;
           all_warnings := all_warnings; all_actions := all_actions;
           agg_rules_evaluated := rules_evaluated |}
      else
        {| final_decision := DELAY;
           agg_blocking_rule := agg_blocking_rule st;
           agg_delay_seconds := agg_delay_seconds st;
           all_warnings := all_warnings; all_actions := all_actions;
           agg_rules_evaluated := rules_evaluated |}
    else
      {| final_decision := final_decision st;
         agg_blocking_rule := agg_blocking_rule st;
         agg_delay_seconds := agg_delay_seconds st;
         all_warnings := all_warnings; all_actions := all_actions;
         agg_rules_evaluated := rules_evaluated |}
  else if require_2fa d then
    (* This rule requires 2FA *)
    if bool_decide (final_decision st ≠ BLOCK ∧ final_decision st ≠ DELAY) then
      {| final_decision := REQUIRE_2FA;
         agg_blocking_rule := agg_blocking_rule st;
         agg_delay_seconds := agg_delay_seconds st;
         all_warnings := all_warnings;
         all_actions := all_actions ++ ["2fa_required"];
         agg_rules_evaluated := rules_evaluated |}
    else
      {| final_decision := final_decision st;
         agg_blocking_rule := agg_blocking_rule st;
         agg_delay_seconds := agg_delay_seconds st;
         all_warnings := all_warnings; all_actions := all_actions;
         agg_rules_evaluated := rules_evaluated |}
  else if truthy_list (warnings d) then
    (* This rule has warnings but allows *)
    {| final_decision :=
         if bool_decide (final_decision st = ALLOW) then WARN
         else final_decision st;
       agg_blocking_rule := agg_blocking_rule st;
       agg_delay_seconds := agg_delay_seconds st;
       all_warnings := all_warnings; all_actions := all_actions;
       agg_rules_evaluated := rules_evaluated |}
  else
    {| final_decision := final_decision st;
       agg_blocking_rule := agg_blocking_rule st;
       agg_delay_seconds := agg_delay_seconds st;
       all_warnings := all_warnings; all_actions := all_actions;
       agg_rules_evaluated := rules_evaluated |}.

Definition aggregate_init : AggregateState :=
  {| final_decision := ALLOW; agg_blocking_rule := None;
     agg_delay_seconds := None; all_warnings := []; all_actions := [];
     agg_rules_evaluated := [] |}.

Definition aggregate_result (st : AggregateState) : ExecutionResult :=
  new_ExecutionResult (final_decision st) (agg_blocking_rule st)
    (agg_delay_seconds st) (list_set (all_warnings st))
    (list_set (all_actions st)) (agg_rules_evaluated st).

Definition _aggregate_decisions
    (decisions : list (PolicyRule * PolicyDecision)) : ExecutionResult :=
  aggregate_result (foldl aggregate_step aggregate_init decisions).

(** The loop of [execute] over the rules still to run, [decisions] being
    the pairs collected so far: either every rule returns, or the first one
    that raises ends the call with the fail-closed result. *)
Fixpoint evaluate_rules (tx : TransactionContext) (todo : list PolicyRule)
    (decisions : list (PolicyRule * PolicyDecision))
    : ExecutionResult + list (PolicyRule * PolicyDecision) :=
  match todo with
  | [] => inr decisions
  | rule :: rest =>
      let context :=
        {| transaction := tx; ctx_user_tier := user_tier tx;
           ctx_current_time := current_time tx;
           recent_transactions := []; whitelist := [] |} in
      match evaluate rule context with
      | Returns d => evaluate_rules tx rest (decisions ++ [(rule, d)])
      | Raises _ =>
          (* Fail closed - block on error *)
          inl (new_ExecutionResult BLOCK
                 (Some (name rule +:+ " (evaluation error)")) None [] []
                 (((λ rd, name (fst rd)) <$> decisions) ++ [name rule]))
      end
  end.

Definition execute (self : PolicyExecutor) (tx : TransactionContext)
    : ExecutionResult :=
  (* Handle duress mode specially *)
  if duress_mode_active tx then
    new_ExecutionResult ALLOW None None ["DURESS_MODE_ACTIVE"] []
      ["duress_intercept"]
  else
    match evaluate_rules tx (rules self) [] with
    | inl failed => failed
    | inr decisions =>
        (* Aggregate decisions (most restrictive wins) *)
        _aggregate_decisions decisions
    end.

End PolicyExecutor.

(** ** evaluator.py *)

Record PolicyEvaluator : Type := {
  executor : PolicyExecutor;
}.

(** One entry of ["blocked_hours"]. *)
Record BlockedHours : Type := {
  bh_start : Z;
  bh_end : Z;
  bh_timezone : string;
}.

(** The dictionary [limits] of [get_applicable_limits] while the loop runs:
    the three amounts start at [float("inf")]. *)
Record LimitsState : Type := {
  st_daily_limit_usd : Decimal;
  st_per_tx_limit_usd : Decimal;
  st_requires_2fa_above_usd : Decimal;
  st_blocked_hours : list BlockedHours;
  st_whitelist_mode : option string;
}.

(** The dictionary that [get_applicable_limits] returns: an amount still
    infinite has become [None]. *)
Record Limits : Type := {
  daily_limit_usd : option Qc;
  per_tx_limit_usd : option Qc;
  requires_2fa_above_usd : option Qc;
  blocked_hours : list BlockedHours;
  whitelist_mode : option string;
}.

Module PolicyEvaluator.

(** [PolicyEvaluator()]: a fresh executor with the three rule types. *)
Definition new `{Runtime} : PolicyEvaluator :=
  let executor := PolicyExecutor.new None in
  let executor := PolicyExecutor.register_rule executor "velocity" VelocityRule in
  let executor := PolicyExecutor.register_rule executor "whitelist" WhitelistRule in
  let executor := PolicyExecutor.register_rule executor "timelock" TimelockRule in
  {| executor := executor |}.

(** The [TransactionContext] that [evaluate_transaction] builds; [utcnow] is
    the reading of [datetime.utcnow()].  Fields not passed keep the
    dataclass defaults. *)
Definition build_context (user_id user_tier chain to_address : string)
    (value_usd daily_outflow_usd : Qc)
    (is_new_address is_contract_call contract_verified duress_mode : bool)
    (utcnow : datetime) : TransactionContext :=
  {| chain := chain;
     to_address := to_address;
     value_native := 0%Qc;
     value_usd := value_usd;
     data := None;
     user_id := user_id;
     user_tier := user_tier;
     daily_outflow_usd := daily_outflow_usd;
     is_new_address := is_new_address;
     address_in_whitelist := negb is_new_address; (* Simplified *)
     current_time := utcnow;
     user_timezone := "UTC";
     duress_mode_active := duress_mode;
     biometric_verified := false;
     is_contract_call := is_contract_call;
     contract_verified := contract_verified;
     function_name := None |}.

(** Returns the evaluator with its executor's rules reloaded, and the
    result. *)
Definition evaluate_transaction (self : PolicyEvaluator)
    (user_id user_tier : string) (policies : list Policy)
    (chain to_address : string) (value_usd daily_outflow_usd : Qc)
    (is_new_address is_contract_call contract_verified duress_mode : bool)
    (utcnow : datetime) : PolicyEvaluator * ExecutionResult :=
  (* Load rules from policy config *)
  let executor := PolicyExecutor.load_rules_from_config (executor self) policies in
  (* Build transaction context *)
  let context :=
    build_context user_id user_tier chain to_address value_usd
      daily_outflow_usd is_new_address is_contract_call contract_verified
      duress_mode utcnow in
  (* Execute policies *)
  let result := PolicyExecutor.execute executor context in
  ({| executor := executor |}, result).

(** The body of the loop of [get_applicable_limits]. *)
Definition limits_step (limits : LimitsState) (policy : Policy) : LimitsState :=
  if negb (default true (policy_is_active policy)) then limits
  else
    let config := default empty_config (policy_config policy) in
    let rule_type := policy_rule_type policy in
    if bool_decide (rule_type = Some "velocity") then
      let limits :=
        if truthy_number (max_daily_usd config) then
          {| st_daily_limit_usd :=
               Decimal.min (st_daily_limit_usd limits)
                           (default 0%Qc (max_daily_usd config));
             st_per_tx_limit_usd := st_per_tx_limit_usd limits;
             st_requires_2fa_above_usd := st_requires_2fa_above_usd limits;
             st_blocked_hours := st_blocked_hours limits;
             st_whitelist_mode := st_whitelist_mode limits |}
        else limits in
      let limits :=
        if truthy_number (max_per_tx_usd config) then
          {| st_daily_limit_usd := st_daily_limit_usd limits;
             st_per_tx_limit_usd :=
               Decimal.min (st_per_tx_limit_usd limits)
                           (default 0%Qc (max_per_tx_usd config));
             st_requires_2fa_above_usd := st_requires_2fa_above_usd limits;
             st_blocked_hours := st_blocked_hours limits;
             st_whitelist_mode := st_whitelist_mode limits |}
        else limits in
      let limits :=
        if truthy_number (require_2fa_above_usd config) then
          {| st_daily_limit_usd := st_daily_limit_usd limits;
             st_per_tx_limit_usd := st_per_tx_limit_usd limits;
             st_requires_2fa_above_usd :=
               Decimal.min (st_requires_2fa_above_usd limits)
                           (default 0%Qc (require_2fa_above_usd config));
             st_blocked_hours := st_blocked_hours limits;
             st_whitelist_mode := st_whitelist_mode limits |}
        else limits in
      limits
    else if bool_decide (rule_type = Some "timelock") then
      match block_start_hour config, block_end_hour config with
      | Some start, Some end_ =>
          {| st_daily_limit_usd := st_daily_limit_usd limits;
             st_per_tx_limit_usd := st_per_tx_limit_usd limits;
             st_requires_2fa_above_usd := st_requires_2fa_above_usd limits;
             st_blocked_hours :=
               st_blocked_hours limits ++
               [{| bh_start := start; bh_end := end_;
                   bh_timezone := default "UTC" (timezone config) |}];
             st_whitelist_mode := st_whitelist_mode limits |}
      | _, _ => limits
      end
    else if bool_decide (rule_type = Some "whitelist") then
      {| st_daily_limit_usd := st_daily_limit_usd limits;
         st_per_tx_limit_usd := st_per_tx_limit_usd limits;
         st_requires_2fa_above_usd := st_requires_2fa_above_usd limits;
         st_blocked_hours := st_blocked_hours limits;
         st_whitelist_mode := mode config |}
    else limits.

(** Convert inf to None for JSON serialization. *)
Definition inf_to_None (d : Decimal) : option Qc :=
  match d with
  | Finite q => Some q
  | Infinity => None
  end.

Definition get_applicable_limits (self : PolicyEvaluator) (user_tier : string)
    (policies : list Policy) : Limits :=
  let limits :=
    {| st_daily_limit_usd := Infinity; st_per_tx_limit_usd := Infinity;
       st_requires_2fa_above_usd := Infinity; st_blocked_hours := [];
       st_whitelist_mode := None |} in
  let limits := foldl limits_step limits policies in
  {| daily_limit_usd := inf_to_None (st_daily_limit_usd limits);
     per_tx_limit_usd := inf_to_None (st_per_tx_limit_usd limits);
     requires_2fa_above_usd := inf_to_None (st_requires_2fa_above_usd limits);
     blocked_hours := st_blocked_hours limits;
     whitelist_mode := st_whitelist_mode limits |}.

End PolicyEvaluator.

(** * Vocabulary of the properties *)

(** The [PolicyContext] that [execute] builds for every rule of one call. *)
Definition policy_context (tx : TransactionContext) : PolicyContext :=
  {| transaction := tx; ctx_user_tier := user_tier tx;
     ctx_current_time := current_time tx;
     recent_transactions := []; whitelist := [] |}.

Definition returns_on (tx : TransactionContext) (r : PolicyRule)
    (d : PolicyDecision) : Prop :=
  evaluate r (policy_context tx) = Returns d.

Definition raises_on (tx : TransactionContext) (r : PolicyRule) : Prop :=
  ∃ message, evaluate r (policy_context tx) = Raises message.

(** The transaction [tx] with its [value_usd] replaced by [v]. *)
Definition with_value_usd (tx : TransactionContext) (v : Qc) : TransactionContext :=
  {| chain := chain tx; to_address := to_address tx;
     value_native := value_native tx; value_usd := v; data := data tx;
     user_id := user_id tx; user_tier := user_tier tx;
     daily_outflow_usd := daily_outflow_usd tx;
     is_new_address := is_new_address tx;
     address_in_whitelist := address_in_whitelist tx;
     current_time := current_time tx; user_timezone := user_timezone tx;
     duress_mode_active := duress_mode_active tx;
     biometric_verified := biometric_verified tx;
     is_contract_call := is_contract_call tx;
     contract_verified := contract_verified tx;
     function_name := function_name tx |}.

(** The restrictiveness order ALLOW < WARN < REQUIRE_2FA < DELAY < BLOCK. *)
Definition restrictiveness (d : DecisionType) : nat :=
  match d with
  | ALLOW => 0
  | WARN => 1
  | REQUIRE_2FA => 2
  | DELAY => 3
  | BLOCK => 4
  end%nat.

(** ** The checks of the velocity rule, as the specification words them *)

Module VelocitySpec.

(** [amount] exceeds a limit that is set; an absent limit is positive
    infinity and is never exceeded. *)
Definition exceeds (amount : Qc) (limit : option Qc) : Prop :=
  ∃ l, limit = Some l ∧ (l < amount)%Qc.

Definition over_per_tx (cfg : Config) (tx : TransactionContext) : Prop :=
  exceeds (value_usd tx) (max_per_tx_usd cfg).

Definition over_daily (cfg : Config) (tx : TransactionContext) : Prop :=
  exceeds (daily_outflow_usd tx + value_usd tx)%Qc (max_daily_usd cfg).




End VelocitySpec.

(** ** The texts of the whitelist rule *)

Module WhitelistSpec.

Definition new_address_warning (tx : TransactionContext) : string :=
  "This is a new address not in your whitelist: " +:+
  prefix10 (to_address tx) +:+ "...".

Definition advisory_warning : string :=
  "Consider adding frequently used addresses to your whitelist".

(** The mode in force: [warn_unknown] unless configured. *)
Definition mode_of (cfg : Config) : string := default "warn_unknown" (mode cfg).

(** No quarantine applies: the key is absent or holds 0 hours. *)
Definition no_quarantine (cfg : Config) : Prop :=
  quarantine_hours_for_new cfg = None ∨ quarantine_hours_for_new cfg = Some 0.

End WhitelistSpec.

(** ** The window of the timelock rule, as the specification words it *)

Module TimelockSpec.

(** The time the rule looks at: converted to the configured timezone, or
    the context's own time when the conversion fails. *)
Definition converted `{Runtime} (cfg : Config) (context : PolicyContext)
    : datetime :=
  default (ctx_current_time context)
    (astimezone (ctx_current_time context) (default "UTC" (timezone cfg))).

Definition saturday : Z := 5.
Definition sunday : Z := 6.

Definition weekend_block `{Runtime} (cfg : Config) (context : PolicyContext)
    : Prop :=
  block_weekends cfg = Some true ∧
  (weekday (converted cfg context) = saturday ∨
   weekday (converted cfg context) = sunday).

(** [h] lies in the blocked window from [s] to [e]. *)
Definition in_window (s e h : Z) : Prop :=
  (s ≤ e ∧ s ≤ h < e) ∨ (s > e ∧ (h >= s ∨ h < e)).

Definition hours_remaining (e h : Z) : Z :=
  if decide (e > h) then e - h else (24 - h) + e.

Definition weekend_reason : string :=
  "Transactions are blocked on weekends. Try again on Monday.".

Definition window_reason (cfg : Config) (s e h : Z) : string :=
  "Transactions are blocked between " +:+ pretty s +:+ ":00 and " +:+
  pretty e +:+ ":00 (" +:+ default "UTC" (timezone cfg) +:+
  "). Try again in ~" +:+ pretty (hours_remaining e h) +:+ " hours.".

End TimelockSpec.

(** ** Loading, as the specification words it *)

Module LoadSpec.

(** The record is skipped: inactive, or of a type the registry lacks. *)
Definition skipped (registry : gmap string RuleClass) (policy : Policy) : Prop :=
  policy_is_active policy = Some false ∨
  policy_rule_type policy = None ∨
  ∃ rule_type,
    policy_rule_type policy = Some rule_type ∧ registry !! rule_type = None.

(** The record is active and [rule] is the instance of its registered class
    built from its name (its type when it has none), its config (empty when
    it has none) and its priority (0 when it has none). *)
Definition instantiates (registry : gmap string RuleClass) (policy : Policy)
    (rule : PolicyRule) : Prop :=
  policy_is_active policy ≠ Some false ∧
  ∃ rule_type rule_class,
    policy_rule_type policy = Some rule_type ∧
    registry !! rule_type = Some rule_class ∧
    rule = rule_class (default rule_type (policy_name policy))
                      (default empty_config (policy_config policy))
                      (default 0 (policy_priority policy)).

(** [kept] are the instances of the records of [policies] that are not
    skipped, in the order of the records. *)
Inductive loaded (registry : gmap string RuleClass)
    : list Policy → list PolicyRule → Prop :=
  | loaded_nil : loaded registry [] []
  | loaded_skip policy policies kept :
      skipped registry policy →
      loaded registry policies kept →
      loaded registry (policy :: policies) kept
  | loaded_keep policy policies rule kept :
      instantiates registry policy rule →
      loaded registry policies kept →
      loaded registry (policy :: policies) (rule :: kept).

(** Highest priority first. *)
Definition by_priority_descending (a b : PolicyRule) : Prop :=
  priority b ≤ priority a.

(** The rules of [l] that have priority [p], in the order of [l]. *)
Definition with_priority (p : Z) (l : list PolicyRule) : list PolicyRule :=
  filter (λ r, priority r = p) l.

End LoadSpec.

(** ** The aggregation, as the specification words it *)

Module AggregateSpec.

Definition blocks (rd : PolicyRule * PolicyDecision) : Prop :=
  allowed (snd rd) = false.





(** [rd] is the first pair of [ds] that blocks. *)
Definition first_blocker (ds : list (PolicyRule * PolicyDecision))
    (rd : PolicyRule * PolicyDecision) : Prop :=
  ∃ before after,
    ds = before ++ rd :: after ∧ blocks rd ∧ Forall (λ x, ¬ blocks x) before.


(** What one decision asks for on its own. *)
Definition verdict (d : PolicyDecision) : DecisionType :=
  if negb (allowed d) then BLOCK
  else if truthy_int (delay_seconds d) then DELAY
  else if require_2fa d then REQUIRE_2FA
  else if truthy_list (warnings d) then WARN
  else ALLOW.

Definition most_restrictive (a b : DecisionType) : DecisionType :=
  if (restrictiveness a <? restrictiveness b)%nat then b else a.

End AggregateSpec.

(** ** Rule sets made of the built-in rules *)




(** ** Consistency of results *)

Module ResultSpec.

(** The running state of the aggregation is consistent: a BLOCK or a DELAY
    is attributed to a rule already evaluated, a DELAY has a delay other
    than 0, and the milder decisions have neither attribution nor delay. *)
Definition consistent (st : AggregateState) : Prop :=
  match final_decision st with
  | BLOCK =>
      ∃ n, agg_blocking_rule st = Some n ∧ n ∈ agg_rules_evaluated st
  | DELAY =>
      ∃ n s, agg_blocking_rule st = Some n ∧ n ∈ agg_rules_evaluated st ∧
             agg_delay_seconds st = Some s ∧ s ≠ 0
  | ALLOW | WARN | REQUIRE_2FA =>
      agg_blocking_rule st = None ∧ agg_delay_seconds st = None
  end.

(** The result [execute] returns under duress. *)
Definition duress_result : ExecutionResult :=
  {| decision := ALLOW; blocking_rule := None;
     result_delay_seconds := None;
     result_warnings := ["DURESS_MODE_ACTIVE"];
     result_required_actions := [];
     rules_evaluated := ["duress_intercept"] |}.

(** A rule that refuses the transaction. *)
Definition refuses (tx : TransactionContext) (r : PolicyRule) : Prop :=
  ∃ d, returns_on tx r d ∧ allowed d = false.

End ResultSpec.

(** ** Hours of the day *)

Module WindowSpec.

(** The hours 0, 1, ..., 23 that the window from [s] to [e] blocks. *)
Definition blocked_hours_of_day (s e : Z) : list Z :=
  filter (λ h, TimelockRule._is_in_blocked_period h s e = true) (seqZ 0 24).

(** The text of the reason of a block by the hour window, with the number
    of hours [n] it announces. *)
Definition reason_with (cfg : Config) (s e n : Z) : string :=
  "Transactions are blocked between " +:+ pretty s +:+ ":00 and " +:+
  pretty e +:+ ":00 (" +:+ default "UTC" (timezone cfg) +:+
  "). Try again in ~" +:+ pretty n +:+ " hours.".

End WindowSpec.

(** ** The limits on display *)

Module LimitsSpec.

(** Some active velocity record of [policies] sets the key read by [key] to
    the amount [q], which is not 0. *)
Definition configured (key : Config → option Qc) (policies : list Policy)
    (q : Qc) : Prop :=
  ∃ policy, policy ∈ policies ∧
    policy_is_active policy ≠ Some false ∧
    policy_rule_type policy = Some "velocity" ∧
    key (default empty_config (policy_config policy)) = Some q ∧
    q ≠ 0%Qc.

(** [shown] is the least of the configured amounts, or [None] when there
    is none. *)
Definition least_configured (key : Config → option Qc)
    (policies : list Policy) (shown : option Qc) : Prop :=
  match shown with
  | Some m =>
      configured key policies m ∧
      ∀ q, configured key policies q → (m <= q)%Qc
  | None => ∀ q, ¬ configured key policies q
  end.

(** What one record contributes to the running minimum of a key. *)
Definition contribution (key : Config → option Qc) (policy : Policy)
    : option Qc :=
  if negb (default true (policy_is_active policy)) then None
  else if bool_decide (policy_rule_type policy = Some "velocity") then
    if truthy_number (key (default empty_config (policy_config policy)))
    then key (default empty_config (policy_config policy))
    else None
  else None.


End LimitsSpec.

(** The transaction [tx] with its amount and its daily outflow replaced. *)
Definition with_amounts (tx : TransactionContext) (v outflow : Qc)
    : TransactionContext :=
  {| chain := chain tx; to_address := to_address tx;
     value_native := value_native tx; value_usd := v; data := data tx;
     user_id := user_id tx; user_tier := user_tier tx;
     daily_outflow_usd := outflow;
     is_new_address := is_new_address tx;
     address_in_whitelist := address_in_whitelist tx;
     current_time := current_time tx; user_timezone := user_timezone tx;
     duress_mode_active := duress_mode_active tx;
     biometric_verified := biometric_verified tx;
     is_contract_call := is_contract_call tx;
     contract_verified := contract_verified tx;
     function_name := function_name tx |}.

(** ** Concrete inputs: the scenarios of the unit tests and others *)

Module Scenarios.

(** A runtime for the examples: amounts print as their integer part and
    every timezone is UTC. *)
Definition runtime : Runtime :=
  {| format_usd := λ d,
       match d with
       | Finite q => pretty (Qnum q `div` Z.pos (Qden q))
       | Infinity => "Infinity"
       end;
     astimezone := λ t _, Some t |}.

Definition velocity_rule : RuleClass := @VelocityRule runtime.
Definition whitelist_rule : RuleClass := WhitelistRule.

Definition usd (z : Z) : Qc := Decimal.of_Z z.

Definition monday_noon : datetime :=
  {| ordinal := 739922; hour := 12; minute := 0; second := 0 |}.

Definition tx0 : TransactionContext :=
  {| chain := "ethereum";
     to_address := "0x742d35Cc6634C0532925a3b844Bc9e7595f8fE89";
     value_native := usd 1; value_usd := usd 5000; data := None;
     user_id := "user123"; user_tier := "humpback";
     daily_outflow_usd := usd 10000; is_new_address := true;
     address_in_whitelist := false; current_time := monday_noon;
     user_timezone := "UTC"; duress_mode_active := false;
     biometric_verified := false; is_contract_call := false;
     contract_verified := false; function_name := None |}.

Definition with_duress (tx : TransactionContext) (b : bool) : TransactionContext :=
  {| chain := chain tx; to_address := to_address tx;
     value_native := value_native tx; value_usd := value_usd tx;
     data := data tx; user_id := user_id tx; user_tier := user_tier tx;
     daily_outflow_usd := daily_outflow_usd tx;
     is_new_address := is_new_address tx;
     address_in_whitelist := address_in_whitelist tx;
     current_time := current_time tx; user_timezone := user_timezone tx;
     duress_mode_active := b;
     biometric_verified := biometric_verified tx;
     is_contract_call := is_contract_call tx;
     contract_verified := contract_verified tx;
     function_name := function_name tx |}.

Definition velocity_config : Config :=
  {| max_daily_usd := Some (usd 50000); max_per_tx_usd := Some (usd 25000);
     require_2fa_above_usd := Some (usd 10000);
     delay_hours_above_usd := None; delay_hours := None; mode := None;
     require_2fa_for_new := None; quarantine_hours_for_new := None;
     block_start_hour := None; block_end_hour := None; timezone := None;
     block_weekends := None |}.

Definition strict_velocity_config : Config :=
  {| max_daily_usd := None; max_per_tx_usd := Some (usd 1000);
     require_2fa_above_usd := None;
     delay_hours_above_usd := None; delay_hours := None; mode := None;
     require_2fa_for_new := None; quarantine_hours_for_new := None;
     block_start_hour := None; block_end_hour := None; timezone := None;
     block_weekends := None |}.

(** A rule whose [evaluate] always raises. *)
Definition broken_rule (name : string) (priority : Z) : PolicyRule :=
  {| name := name; config := empty_config; priority := priority;
     evaluate := λ _, Raises "malformed config" |}.

Definition duress_tx : TransactionContext :=
  {| chain := "ethereum"; to_address := "0x123";
     value_native := usd 100; value_usd := usd 50000; data := None;
     user_id := ""; user_tier := "orca";
     daily_outflow_usd := usd 0; is_new_address := true;
     address_in_whitelist := false; current_time := monday_noon;
     user_timezone := "UTC"; duress_mode_active := true;
     biometric_verified := false; is_contract_call := false;
     contract_verified := false; function_name := None |}.

Definition duress_executor : PolicyExecutor :=
  PolicyExecutor.new
    (Some [velocity_rule "Velocity" strict_velocity_config 10;
           broken_rule "Broken" 5]).

(** An allowing rule ahead of a raising one. *)
Definition failing_executor : PolicyExecutor :=
  PolicyExecutor.new
    (Some [velocity_rule "Velocity" velocity_config 10;
           broken_rule "Broken" 5;
           whitelist_rule "Whitelist" empty_config 1]).

(** A whitelist rule in warn mode with a quarantine of 0 hours and 2FA for
    new addresses. *)
Definition zero_quarantine_config : Config :=
  {| max_daily_usd := None; max_per_tx_usd := None;
     require_2fa_above_usd := None;
     delay_hours_above_usd := None; delay_hours := None;
     mode := Some "warn_unknown";
     require_2fa_for_new := Some true; quarantine_hours_for_new := Some 0;
     block_start_hour := None; block_end_hour := None; timezone := None;
     block_weekends := None |}.

(** The quarantine of the unit tests: 24 hours, with 2FA configured too. *)
Definition quarantine_config : Config :=
  {| max_daily_usd := None; max_per_tx_usd := None;
     require_2fa_above_usd := None;
     delay_hours_above_usd := None; delay_hours := None;
     mode := Some "warn_unknown";
     require_2fa_for_new := Some true; quarantine_hours_for_new := Some 24;
     block_start_hour := None; block_end_hour := None; timezone := None;
     block_weekends := None |}.

Definition block_unknown_config : Config :=
  {| max_daily_usd := None; max_per_tx_usd := None;
     require_2fa_above_usd := None;
     delay_hours_above_usd := None; delay_hours := None;
     mode := Some "block_unknown";
     require_2fa_for_new := None; quarantine_hours_for_new := None;
     block_start_hour := None; block_end_hour := None; timezone := None;
     block_weekends := None |}.

(** Blocked from 23:00 to 06:00, and on weekends. *)
Definition overnight_config : Config :=
  {| max_daily_usd := None; max_per_tx_usd := None;
     require_2fa_above_usd := None;
     delay_hours_above_usd := None; delay_hours := None; mode := None;
     require_2fa_for_new := None; quarantine_hours_for_new := None;
     block_start_hour := Some 23; block_end_hour := Some 6;
     timezone := None; block_weekends := Some true |}.

(** A context whose time is the ordinal day [day] at [h]:00. *)
Definition context_at (day h : Z) : PolicyContext :=
  {| transaction := tx0; ctx_user_tier := "humpback";
     ctx_current_time :=
       {| ordinal := day; hour := h; minute := 0; second := 0 |};
     recent_transactions := []; whitelist := [] |}.

Definition rule_a : PolicyRule := whitelist_rule "A" empty_config 10.
Definition rule_b : PolicyRule := whitelist_rule "B" empty_config 5.

(** A higher-priority delay of one hour, then a lower-priority block. *)
Definition delay_then_block : list (PolicyRule * PolicyDecision) :=
  [(rule_a, PolicyDecision.delay 3600 "wait");
   (rule_b, PolicyDecision.block "no")].

Definition policy (rule_type name : string) (prio : Z) (active : bool)
    (cfg : Config) : Policy :=
  {| policy_rule_type := Some rule_type; policy_name := Some name;
     policy_config := Some cfg; policy_priority := Some prio;
     policy_is_active := Some active |}.

Definition twofa_above_5000 : Config :=
  {| max_daily_usd := None; max_per_tx_usd := None;
     require_2fa_above_usd := Some (usd 5000);
     delay_hours_above_usd := None; delay_hours := None; mode := None;
     require_2fa_for_new := None; quarantine_hours_for_new := None;
     block_start_hour := None; block_end_hour := None; timezone := None;
     block_weekends := None |}.

(** Records in no particular order: two ties at priority 5, an inactive
    record and one of an unknown type. *)
Definition mixed_policies : list Policy :=
  [policy "whitelist" "Whitelist" 5 true empty_config;
   policy "timelock" "Off" 99 false empty_config;
   policy "timelock" "Timelock" 5 true empty_config;
   policy "geofence" "Unknown" 50 true empty_config;
   policy "velocity" "Velocity" 10 true twofa_above_5000].

Definition evaluator : PolicyEvaluator := @PolicyEvaluator.new runtime.







(** The executor of the aggregation unit test. *)
Definition test_executor : PolicyExecutor :=
  PolicyExecutor.new
    (Some [velocity_rule "Velocity" twofa_above_5000 10;
           whitelist_rule "Whitelist" empty_config 5]).


(** The executor of the aggregation unit test with a blocking whitelist
    rule added between its two rules. *)
Definition stricter_executor : PolicyExecutor :=
  PolicyExecutor.new
    (Some [velocity_rule "Velocity" twofa_above_5000 10;
           whitelist_rule "Strict" block_unknown_config 7;
           whitelist_rule "Whitelist" empty_config 5]).

(** Three active records of registered types, priorities not increasing. *)
Definition ordered_policies : list Policy :=
  [policy "velocity" "Velocity" 10 true twofa_above_5000;
   policy "whitelist" "Whitelist" 5 true empty_config;
   policy "timelock" "Timelock" 5 true empty_config].

Definition ordered_rules : list PolicyRule :=
  [velocity_rule "Velocity" twofa_above_5000 10;
   whitelist_rule "Whitelist" empty_config 5;
   @TimelockRule runtime "Timelock" empty_config 5].

(** An inactive record and one of a type nobody registered. *)
Definition skipped_policies : list Policy :=
  [policy "velocity" "Off" 10 false strict_velocity_config;
   policy "velocty" "Misspelt" 10 true strict_velocity_config].

(** Every timezone name is known. *)
Definition timezones : TimezoneDatabase := {| known_timezone := λ _, true |}.

(** Nothing sent yet today, nothing asked for. *)
Definition idle_tx : TransactionContext :=
  {| chain := "ethereum"; to_address := "0x123";
     value_native := usd 0; value_usd := usd 0; data := None;
     user_id := "user123"; user_tier := "humpback";
     daily_outflow_usd := usd 0; is_new_address := true;
     address_in_whitelist := false; current_time := monday_noon;
     user_timezone := "UTC"; duress_mode_active := false;
     biometric_verified := false; is_contract_call := false;
     contract_verified := false; function_name := None |}.

(** The velocity policy of the unit tests beside a lower per-transaction
    limit that is switched off and a limit of 0. *)
Definition limit_policies : list Policy :=
  [policy "velocity" "Velocity" 10 true velocity_config;
   policy "velocity" "Off" 20 false strict_velocity_config;
   policy "whitelist" "Whitelist" 5 true block_unknown_config].



End Scenarios.

(** * Properties *)

(** ** The executor: duress and failing rules *)

(** C1. Under duress [execute] answers ALLOW with the single warning
    DURESS_MODE_ACTIVE and the audit trail [duress_intercept], whatever the
    executor's rules are: blocking rules and rules whose [evaluate] raises
    included, so none of them is consulted. *)
Theorem execute_duress_short_circuit (self : PolicyExecutor)
    (tx : TransactionContext) :
  duress_mode_active tx = true →
  PolicyExecutor.execute self tx =
    {| decision := ALLOW; blocking_rule := None;
       result_delay_seconds := None;
       result_warnings := ["DURESS_MODE_ACTIVE"];
       result_required_actions := [];
       rules_evaluated := ["duress_intercept"] |}.
Proof.
  intros Hduress. unfold PolicyExecutor.execute. rewrite Hduress. reflexivity.
Qed.

Lemma execute_duress_short_circuit_witness :
  PolicyExecutor.execute Scenarios.duress_executor Scenarios.duress_tx =
    {| decision := ALLOW; blocking_rule := None;
       result_delay_seconds := None;
       result_warnings := ["DURESS_MODE_ACTIVE"];
       result_required_actions := [];
       rules_evaluated := ["duress_intercept"] |}.
Proof.
  apply (execute_duress_short_circuit Scenarios.duress_executor
           Scenarios.duress_tx).
  reflexivity.
Defined.

(** The same rules without duress: the velocity rule blocks. *)
Example execute_without_duress_blocks :
  decision (PolicyExecutor.execute
              (PolicyExecutor.new
                 (Some [Scenarios.velocity_rule "Velocity"
                          Scenarios.strict_velocity_config 10]))
              (Scenarios.with_duress Scenarios.duress_tx false)) = BLOCK.
Proof. vm_compute. reflexivity. Qed.

(** The loop of [execute] over a prefix of rules that all return. *)
Lemma evaluate_rules_returning tx (before rest : list PolicyRule)
    (ds : list PolicyDecision) (acc : list (PolicyRule * PolicyDecision)) :
  Forall2 (returns_on tx) before ds →
  PolicyExecutor.evaluate_rules tx (before ++ rest) acc =
  PolicyExecutor.evaluate_rules tx rest (acc ++ zip before ds).
Proof.
  intros Hret. revert acc.
  induction Hret as [|r d before ds Hr _ IH]; intros acc; simpl.
  - by rewrite app_nil_r.
  - unfold returns_on, policy_context in Hr. rewrite Hr.
    rewrite IH. by rewrite <- app_assoc.
Qed.

Lemma evaluate_rules_all_return tx (rules : list PolicyRule)
    (ds : list PolicyDecision) :
  Forall2 (returns_on tx) rules ds →
  PolicyExecutor.evaluate_rules tx rules [] = inr (zip rules ds).
Proof.
  intros Hret.
  rewrite <- (app_nil_r rules) at 1.
  by rewrite (evaluate_rules_returning tx rules [] ds []).
Qed.

(** Every rule either returns or raises, so a list in which some rule
    raises splits at the first one that does. *)
Lemma first_raising_rule tx (rules : list PolicyRule) :
  Exists (raises_on tx) rules →
  ∃ before rule after ds,
    rules = before ++ rule :: after ∧
    Forall2 (returns_on tx) before ds ∧
    raises_on tx rule.
Proof.
  induction rules as [|r rules IH]; intros Hex.
  - inversion Hex.
  - destruct (evaluate r (policy_context tx)) as [d|message] eqn:Hr.
    + assert (Exists (raises_on tx) rules) as Htail.
      { inversion Hex as [? ? [m Hm]|]; subst; [congruence | done]. }
      destruct (IH Htail) as (before & rule & after & ds & -> & Hds & Hraise).
      exists (r :: before), rule, after, (d :: ds).
      split; [done|]. split; [|done]. by constructor.
    + exists [], r, rules, []. split; [done|]. split; [constructor|].
      by exists message.
Qed.

Lemma fst_zip_names (rules : list PolicyRule) (ds : list PolicyDecision) :
  length rules = length ds →
  (λ rd : PolicyRule * PolicyDecision, name (fst rd)) <$> zip rules ds
  = name <$> rules.
Proof.
  revert ds. induction rules as [|r rules IH]; intros [|d ds] Hlen;
    simpl in *; try done.
  f_equal. apply IH. lia.
Qed.

(** C2. Without duress, as soon as some rule of the executor raises,
    [execute] returns BLOCK: the rules ahead of the first raising one all
    returned (whatever they decided, allowing or not), the blocking rule is
    that rule's name followed by " (evaluation error)", and the audit trail
    lists the rules run so far, the raising one last. *)
Theorem execute_fail_closed (self : PolicyExecutor) (tx : TransactionContext) :
  duress_mode_active tx = false →
  Exists (raises_on tx) (rules self) →
  ∃ before rule after ds,
    rules self = before ++ rule :: after ∧
    Forall2 (returns_on tx) before ds ∧
    raises_on tx rule ∧
    PolicyExecutor.execute self tx =
      {| decision := BLOCK;
         blocking_rule := Some (name rule +:+ " (evaluation error)");
         result_delay_seconds := None;
         result_warnings := [];
         result_required_actions := [];
         rules_evaluated := (name <$> before) ++ [name rule] |}.
Proof.
  intros Hduress Hex.
  destruct (first_raising_rule tx _ Hex)
    as (before & rule & after & ds & Hsplit & Hds & Hraise).
  exists before, rule, after, ds. repeat split; try done.
  unfold PolicyExecutor.execute. rewrite Hduress, Hsplit.
  rewrite (evaluate_rules_returning tx before (rule :: after) ds []) by done.
  destruct Hraise as [message Hraise]. simpl.
  unfold policy_context in Hraise. rewrite Hraise.
  unfold new_ExecutionResult; simpl. do 2 f_equal.
  apply fst_zip_names. by eapply Forall2_length.
Qed.

Lemma execute_fail_closed_witness :
  ∃ before rule after ds,
    rules Scenarios.failing_executor = before ++ rule :: after ∧
    Forall2 (returns_on Scenarios.tx0) before ds ∧
    raises_on Scenarios.tx0 rule ∧
    PolicyExecutor.execute Scenarios.failing_executor Scenarios.tx0 =
      {| decision := BLOCK;
         blocking_rule := Some (name rule +:+ " (evaluation error)");
         result_delay_seconds := None;
         result_warnings := [];
         result_required_actions := [];
         rules_evaluated := (name <$> before) ++ [name rule] |}.
Proof.
  apply (execute_fail_closed Scenarios.failing_executor Scenarios.tx0).
  - reflexivity.
  - apply Exists_cons_tl, Exists_cons_hd. by exists "malformed config".
Defined.

(** On that input the rule ahead of the raising one allowed the
    transaction, and the result still blocks and names the raising rule. *)
Example execute_fail_closed_after_allow :
  returns_on Scenarios.tx0
    (Scenarios.velocity_rule "Velocity" Scenarios.velocity_config 10)
    (PolicyDecision.allow None) ∧
  PolicyExecutor.execute Scenarios.failing_executor Scenarios.tx0 =
    {| decision := BLOCK;
       blocking_rule := Some "Broken (evaluation error)";
       result_delay_seconds := None;
       result_warnings := [];
       result_required_actions := [];
       rules_evaluated := ["Velocity"; "Broken"] |}.
Proof. split; vm_compute; reflexivity. Qed.

(** ** The velocity rule *)

Lemma Decimal_gt_exceeds (amount : Qc) (limit : option Qc) :
  Decimal.gt amount (from_option Finite Infinity limit) = true
  ↔ VelocitySpec.exceeds amount limit.
Proof.
  unfold VelocitySpec.exceeds. destruct limit as [l|]; simpl.
  - rewrite bool_decide_eq_true. split.
    + intros Hlt. by exists l.
    + by intros (l' & [= <-] & Hlt).
  - split; [done|]. by intros (l' & [=] & _).
Qed.









(** The four scenarios of the unit tests of the velocity rule. *)
Example velocity_scenarios :
  let evaluate v :=
    @VelocityRule.evaluate Scenarios.runtime Scenarios.velocity_config
      (policy_context (with_value_usd Scenarios.tx0 (Scenarios.usd v))) in
  evaluate 5000 = Returns (PolicyDecision.allow None) ∧
  evaluate 30000 = Returns (PolicyDecision.block
    "Transaction amount $30000 exceeds per-transaction limit of $25000") ∧
  (∃ d, evaluate 45000 = Returns d ∧ allowed d = false) ∧
  evaluate 15000 = Returns (PolicyDecision.require_verification "2fa_required").
Proof. split_and!; try (eexists; split); vm_compute; reflexivity. Qed.

(** ** The whitelist rule *)

(** Splits a statement by cases into its clauses and closes those whose
    premises contradict the case at hand. *)
Ltac whitelist_clauses :=
  repeat match goal with
         | |- _ ∧ _ => split
         | |- _ → _ => intros ?
         | |- ∀ _, _ => intros ?
         | H : _ ∨ _ |- _ => destruct H
         end;
  simplify_eq; try done.

(** C6, as the code has it.  [WhitelistRule.evaluate] always returns.  A
    whitelisted address is allowed unconditionally.  A new address that is
    not whitelisted is refused in mode [block_unknown]; in any other mode
    (so in [warn_unknown], the default) the decision carries the warning
    naming the address and is: allowed with a delay of the quarantine hours
    times 3600 when the quarantine is set to a number of hours other than 0
    (2FA being configured or not); else allowed with 2FA required when
    [require_2fa_for_new] is true; else a plain allow with the warning.  A
    known address that is not whitelisted is allowed with the advisory
    warning. *)
Theorem whitelist_evaluate_cases (cfg : Config) (context : PolicyContext) :
  let tx := transaction context in
  ∃ d, WhitelistRule.evaluate cfg context = Returns d ∧
    (address_in_whitelist tx = true → d = PolicyDecision.allow None) ∧
    (address_in_whitelist tx = false → is_new_address tx = true →
     WhitelistSpec.mode_of cfg = "block_unknown" → allowed d = false) ∧
    (address_in_whitelist tx = false → is_new_address tx = true →
     WhitelistSpec.mode_of cfg ≠ "block_unknown" →
       warnings d = [WhitelistSpec.new_address_warning tx] ∧
       (∀ h, quarantine_hours_for_new cfg = Some h → h ≠ 0 →
          allowed d = true ∧ delay_seconds d = Some (h * 3600) ∧
          require_2fa d = false) ∧
       (WhitelistSpec.no_quarantine cfg →
        require_2fa_for_new cfg = Some true →
          allowed d = true ∧ require_2fa d = true ∧ delay_seconds d = None ∧
          required_actions d = ["2fa_required"]) ∧
       (WhitelistSpec.no_quarantine cfg →
        require_2fa_for_new cfg ≠ Some true →
          d = PolicyDecision.allow
                (Some [WhitelistSpec.new_address_warning tx]))) ∧
    (address_in_whitelist tx = false → is_new_address tx = false →
       d = PolicyDecision.allow (Some [WhitelistSpec.advisory_warning])).
Proof.
  intros tx. unfold WhitelistRule.evaluate. fold tx.
  unfold WhitelistSpec.mode_of, WhitelistSpec.no_quarantine.
  destruct (address_in_whitelist tx) eqn:Hwl.
  { eexists; split; [done|]. whitelist_clauses. }
  destruct (is_new_address tx) eqn:Hnew.
  2: { eexists; split; [done|]. whitelist_clauses. }
  destruct (String.eqb _ "block_unknown") eqn:Hmode.
  { apply String.eqb_eq in Hmode.
    eexists; split; [done|]. whitelist_clauses. }
  apply String.eqb_neq in Hmode.
  destruct (quarantine_hours_for_new cfg) as [h|] eqn:Hq; simpl.
  - destruct (Z.eqb_spec h 0) as [->|Hh]; simpl.
    + destruct (require_2fa_for_new cfg) as [[]|] eqn:H2fa; simpl;
        (eexists; split; [done|]); whitelist_clauses.
    + eexists; split; [done|]. whitelist_clauses.
  - destruct (require_2fa_for_new cfg) as [[]|] eqn:H2fa; simpl;
      (eexists; split; [done|]); whitelist_clauses.
Qed.

(** A quarantine of 24 hours for a new address, 2FA being configured too:
    a delay of 86400 seconds and no 2FA. *)
Lemma whitelist_evaluate_cases_witness :
  ∃ d, WhitelistRule.evaluate Scenarios.quarantine_config
         (policy_context Scenarios.tx0) = Returns d ∧
    warnings d = [WhitelistSpec.new_address_warning Scenarios.tx0] ∧
    allowed d = true ∧ delay_seconds d = Some (24 * 3600) ∧
    require_2fa d = false.
Proof.
  destruct (whitelist_evaluate_cases Scenarios.quarantine_config
              (policy_context Scenarios.tx0))
    as (d & Hd & _ & _ & Hwarn & _).
  exists d. split; [exact Hd|].
  destruct Hwarn as (Hwarnings & Hquarantine & _).
  - reflexivity.
  - reflexivity.
  - vm_compute. discriminate.
  - split; [exact Hwarnings|].
    apply (Hquarantine 24); [reflexivity|lia].
Defined.

(** C6 as stated fails: with the quarantine key set to 0 hours (and 2FA for
    new addresses) the decision for a new, non-whitelisted address in mode
    [warn_unknown] carries no delay of 0 × 3600 seconds: it requires 2FA. *)
Lemma whitelist_zero_quarantine_counterexample :
  let cfg := Scenarios.zero_quarantine_config in
  let tx := Scenarios.tx0 in
  address_in_whitelist tx = false ∧ is_new_address tx = true ∧
  mode cfg = Some "warn_unknown" ∧
  quarantine_hours_for_new cfg = Some 0 ∧
  ∃ d, WhitelistRule.evaluate cfg (policy_context tx) = Returns d ∧
       delay_seconds d ≠ Some (0 * 3600) ∧
       delay_seconds d = None ∧ require_2fa d = true.
Proof.
  split_and!; try reflexivity.
  eexists. split; [vm_compute; reflexivity|]. by split_and!.
Qed.

(** The scenarios of the unit tests of the whitelist rule, and the
    quarantine taking precedence over 2FA. *)
Example whitelist_scenarios :
  (∃ d, WhitelistRule.evaluate Scenarios.quarantine_config
          (policy_context Scenarios.tx0) = Returns d ∧
        allowed d = true ∧ delay_seconds d = Some 86400 ∧
        require_2fa d = false) ∧
  (∃ d, WhitelistRule.evaluate Scenarios.block_unknown_config
          (policy_context Scenarios.tx0) = Returns d ∧ allowed d = false).
Proof. split; eexists; (split; [vm_compute; reflexivity|]); done. Qed.

(** ** The timelock rule *)

Lemma weekday_range (t : datetime) : 0 ≤ weekday t < 7.
Proof. unfold weekday. apply Z.mod_pos_bound. lia. Qed.

Lemma weekend_test `{Runtime} (cfg : Config) (context : PolicyContext) :
  truthy_bool (block_weekends cfg) &&
    (weekday (TimelockSpec.converted cfg context) >=? 5) = true
  ↔ TimelockSpec.weekend_block cfg context.
Proof.
  unfold TimelockSpec.weekend_block, TimelockSpec.saturday, TimelockSpec.sunday.
  pose proof (weekday_range (TimelockSpec.converted cfg context)) as Hrange.
  rewrite andb_true_iff, Z.geb_le.
  destruct (block_weekends cfg) as [[]|]; simpl; split;
    try (intros [? ?]; done); intros [? ?]; split; try done; lia.
Qed.

Lemma blocked_period_window (h s e : Z) :
  TimelockRule._is_in_blocked_period h s e = true
  ↔ TimelockSpec.in_window s e h.
Proof.
  unfold TimelockRule._is_in_blocked_period, TimelockSpec.in_window.
  destruct (Z.leb_spec s e).
  - rewrite andb_true_iff, Z.leb_le, Z.ltb_lt. lia.
  - rewrite orb_true_iff, Z.geb_le, Z.ltb_lt. lia.
Qed.

Lemma hours_until_remaining (e h : Z) :
  (if e >? h then e - h else 24 - h + e) = TimelockSpec.hours_remaining e h.
Proof.
  unfold TimelockSpec.hours_remaining.
  destruct (Z.gtb_spec e h); case_decide; lia.
Qed.

(** C7. [TimelockRule.evaluate] always returns.  With [block_weekends] set
    and the converted weekday a Saturday or Sunday it blocks, whatever the
    hours.  Otherwise, with both hour bounds configured, it blocks exactly
    when the converted hour lies in the window (from start up to end when
    start ≤ end; at or after start, or before end, when start > end), the
    reason giving end − hour hours when end > hour and (24 − hour) + end
    otherwise; and it allows in every other case. *)
Theorem timelock_evaluate_cases `{Runtime} (cfg : Config)
    (context : PolicyContext) :
  let h := hour (TimelockSpec.converted cfg context) in
  ∃ d, TimelockRule.evaluate cfg context = Returns d ∧
    (TimelockSpec.weekend_block cfg context →
       d = PolicyDecision.block TimelockSpec.weekend_reason) ∧
    (¬ TimelockSpec.weekend_block cfg context →
     ∀ s e, block_start_hour cfg = Some s → block_end_hour cfg = Some e →
       (allowed d = false ↔ TimelockSpec.in_window s e h) ∧
       (TimelockSpec.in_window s e h →
          d = PolicyDecision.block (TimelockSpec.window_reason cfg s e h)) ∧
       (¬ TimelockSpec.in_window s e h → d = PolicyDecision.allow None)) ∧
    (¬ TimelockSpec.weekend_block cfg context →
     block_start_hour cfg = None ∨ block_end_hour cfg = None →
       d = PolicyDecision.allow None).
Proof.
  intros h. unfold TimelockRule.evaluate.
  change (match astimezone (ctx_current_time context)
                  (default "UTC" (timezone cfg)) with
          | Some converted => converted
          | None => ctx_current_time context
          end) with (TimelockSpec.converted cfg context).
  fold h.
  destruct (truthy_bool (block_weekends cfg) && _) eqn:Hweekend.
  { apply weekend_test in Hweekend.
    eexists; split; [done|]. split_and!; intros; done. }
  apply not_true_iff_false in Hweekend. rewrite weekend_test in Hweekend.
  destruct (block_start_hour cfg) as [s|] eqn:Hs,
           (block_end_hour cfg) as [e|] eqn:He.
  2-4: eexists; split; [done|]; split_and!; intros; try done;
       intros; simplify_eq; naive_solver.
  destruct (TimelockRule._is_in_blocked_period h s e) eqn:Hin.
  - apply blocked_period_window in Hin.
    eexists; split; [done|]. split_and!; try done.
    + intros _ s' e' [= <-] [= <-]. split_and!; try done.
      intros _. cbn zeta. rewrite hours_until_remaining. done.
    + intros _ [?|?]; done.
  - apply not_true_iff_false in Hin. rewrite blocked_period_window in Hin.
    eexists; split; [done|]. split_and!; try done.
    intros _ s' e' [= <-] [= <-]. split_and!; try done.
Qed.

(** A Monday at 02:00 lies in the window from 23:00 to 06:00, four hours
    before its end. *)
Lemma timelock_evaluate_cases_witness :
  @TimelockRule.evaluate Scenarios.runtime Scenarios.overnight_config
    (Scenarios.context_at 739922 2)
  = Returns (PolicyDecision.block
      (TimelockSpec.window_reason Scenarios.overnight_config 23 6 2)).
Proof.
  destruct (@timelock_evaluate_cases Scenarios.runtime
              Scenarios.overnight_config (Scenarios.context_at 739922 2))
    as (d & Hd & _ & Hwindow & _).
  rewrite Hd. f_equal.
  apply (Hwindow) with (s := 23) (e := 6).
  - intros [_ [Hday|Hday]]; vm_compute in Hday; discriminate.
  - reflexivity.
  - reflexivity.
  - right. vm_compute. split; [reflexivity|]. right. reflexivity.
Defined.

(** A Saturday noon is blocked by the weekend switch, a Monday at 23:00
    and at 02:00 by the overnight window (7 and 4 hours remaining), and a
    Monday noon is allowed. *)
Example timelock_scenarios :
  let evaluate day h :=
    @TimelockRule.evaluate Scenarios.runtime Scenarios.overnight_config
      (Scenarios.context_at day h) in
  evaluate 739927 12 = Returns (PolicyDecision.block
    "Transactions are blocked on weekends. Try again on Monday.") ∧
  evaluate 739922 23 = Returns (PolicyDecision.block
    "Transactions are blocked between 23:00 and 6:00 (UTC). Try again in ~7 hours.") ∧
  evaluate 739922 2 = Returns (PolicyDecision.block
    "Transactions are blocked between 23:00 and 6:00 (UTC). Try again in ~4 hours.") ∧
  evaluate 739922 12 = Returns (PolicyDecision.allow None).
Proof. split_and!; vm_compute; reflexivity. Qed.

(** ** The evaluator facade *)

(** C9. [evaluate_transaction] hands the executor a context whose
    [address_in_whitelist] is the negation of [is_new_address].  On that
    context a whitelist rule, however configured, treats every address that
    is not new as whitelisted (the unconditional allow), never takes the
    branch of a known address that is not whitelisted (the advisory
    warning), and never treats a new address as whitelisted. *)
Theorem evaluator_whitelist_is_not_new (self : PolicyEvaluator)
    (user_id user_tier : string) (policies : list Policy)
    (chain to_address : string) (value_usd daily_outflow_usd : Qc)
    (is_new is_contract_call contract_verified duress_mode : bool)
    (utcnow : datetime) :
  let tx :=
    PolicyEvaluator.build_context user_id user_tier chain to_address
      value_usd daily_outflow_usd is_new is_contract_call contract_verified
      duress_mode utcnow in
  snd (PolicyEvaluator.evaluate_transaction self user_id user_tier policies
         chain to_address value_usd daily_outflow_usd is_new
         is_contract_call contract_verified duress_mode utcnow)
  = PolicyExecutor.execute
      (PolicyExecutor.load_rules_from_config (executor self) policies) tx ∧
  is_new_address tx = is_new ∧
  address_in_whitelist tx = negb is_new ∧
  ∀ cfg : Config,
    let outcome := WhitelistRule.evaluate cfg (policy_context tx) in
    (is_new = false → outcome = Returns (PolicyDecision.allow None)) ∧
    (is_new = true →
       address_in_whitelist tx = false ∧
       outcome ≠ Returns (PolicyDecision.allow None)) ∧
    outcome ≠
      Returns (PolicyDecision.allow (Some [WhitelistSpec.advisory_warning])).
Proof.
  intros tx. split_and!; try reflexivity.
  intros cfg outcome. subst outcome. unfold WhitelistRule.evaluate.
  cbn [transaction policy_context]. subst tx.
  cbn [PolicyEvaluator.build_context address_in_whitelist is_new_address].
  destruct is_new; cbn [negb].
  - split_and!; [done| |].
    + intros _. split; [done|].
      destruct (String.eqb _ _); [done|].
      destruct (truthy_int _); [done|].
      destruct (truthy_bool _); done.
    + destruct (String.eqb _ _); [done|].
      destruct (truthy_int _); [done|].
      destruct (truthy_bool _); done.
  - split_and!; done.
Qed.

(** A known address through the facade: whitelisted for a blocking
    whitelist rule. *)
Lemma evaluator_whitelist_is_not_new_witness :
  WhitelistRule.evaluate Scenarios.block_unknown_config
    (policy_context
       (PolicyEvaluator.build_context "user123" "humpback" "ethereum" "0x123"
          (Scenarios.usd 5000) (Scenarios.usd 0) false false false false
          Scenarios.monday_noon))
  = Returns (PolicyDecision.allow None).
Proof.
  destruct (evaluator_whitelist_is_not_new Scenarios.evaluator
              "user123" "humpback" [] "ethereum" "0x123"
              (Scenarios.usd 5000) (Scenarios.usd 0) false false false false
              Scenarios.monday_noon)
    as (_ & _ & _ & Hrule).
  destruct (Hrule Scenarios.block_unknown_config) as (Hknown & _).
  apply Hknown. reflexivity.
Defined.

(** Through the facade, a known address meets a blocking whitelist policy
    as a whitelisted one. *)
Example evaluator_known_address_allowed :
  let policies :=
    [{| policy_rule_type := Some "whitelist"; policy_name := Some "Whitelist";
        policy_config := Some Scenarios.block_unknown_config;
        policy_priority := Some 5; policy_is_active := Some true |}] in
  snd (PolicyEvaluator.evaluate_transaction
         (@PolicyEvaluator.new Scenarios.runtime) "user123" "humpback"
         policies "ethereum" "0x123" (Scenarios.usd 5000) (Scenarios.usd 0)
         false false false false Scenarios.monday_noon)
  = {| decision := ALLOW; blocking_rule := None;
       result_delay_seconds := None; result_warnings := [];
       result_required_actions := []; rules_evaluated := ["Whitelist"] |}.
Proof. vm_compute. reflexivity. Qed.

(** ** Aggregation *)

(** C10. When a rule that allows with a positive delay is followed by a
    rule that refuses, the aggregated result is a BLOCK attributed to the
    refusing rule, and its [delay_seconds] still holds the delay of the
    first rule. *)
Theorem aggregate_block_keeps_earlier_delay (r1 r2 : PolicyRule)
    (d1 d2 : PolicyDecision) (seconds : Z) :
  allowed d1 = true → delay_seconds d1 = Some seconds → 0 < seconds →
  allowed d2 = false →
  let result := PolicyExecutor._aggregate_decisions [(r1, d1); (r2, d2)] in
  decision result = BLOCK ∧
  blocking_rule result = Some (name r2) ∧
  result_delay_seconds result = Some seconds.
Proof.
  intros Hallowed Hdelay Hpos Hblocked.
  unfold PolicyExecutor._aggregate_decisions. cbn [foldl].
  assert (PolicyExecutor.aggregate_step PolicyExecutor.aggregate_init (r1, d1)
          = {| final_decision := DELAY; agg_blocking_rule := Some (name r1);
               agg_delay_seconds := Some seconds;
               all_warnings := warnings d1;
               all_actions := required_actions d1;
               agg_rules_evaluated := [name r1] |}) as ->.
  { unfold PolicyExecutor.aggregate_step; simpl.
    rewrite Hallowed, Hdelay; simpl.
    destruct (Z.eqb_spec seconds 0) as [->|_]; [lia|]. done. }
  unfold PolicyExecutor.aggregate_step; simpl.
  rewrite Hblocked; simpl. done.
Qed.

Lemma aggregate_block_keeps_earlier_delay_witness :
  let result := PolicyExecutor._aggregate_decisions Scenarios.delay_then_block in
  decision result = BLOCK ∧
  blocking_rule result = Some "B" ∧
  result_delay_seconds result = Some 3600.
Proof.
  apply (aggregate_block_keeps_earlier_delay Scenarios.rule_a Scenarios.rule_b
           (PolicyDecision.delay 3600 "wait") (PolicyDecision.block "no") 3600);
    [reflexivity | reflexivity | lia | reflexivity].
Defined.

(** ** Loading and ordering the rules *)

Lemma load_rule_cases (registry : gmap string RuleClass)
    (rules : list PolicyRule) (policy : Policy) :
  (LoadSpec.skipped registry policy ∧
   PolicyExecutor.load_rule registry rules policy = rules) ∨
  (∃ rule, LoadSpec.instantiates registry policy rule ∧
   PolicyExecutor.load_rule registry rules policy = rules ++ [rule]).
Proof.
  unfold PolicyExecutor.load_rule, LoadSpec.skipped, LoadSpec.instantiates.
  destruct (policy_is_active policy) as [[]|] eqn:Hactive; simpl;
    [ | by left; split; [left|] | ].
  all: destruct (policy_rule_type policy) as [rule_type|] eqn:Htype;
    [ | by left; split; [right; left|] ].
  all: destruct (registry !! rule_type) as [rule_class|] eqn:Hclass;
    [ | left; split; [right; right; by exists rule_type|done] ].
  all: right; eexists; split; [split; [done|]|done].
  all: by exists rule_type, rule_class.
Qed.

Lemma load_loop_loaded (registry : gmap string RuleClass)
    (policies : list Policy) (rules : list PolicyRule) :
  ∃ kept, LoadSpec.loaded registry policies kept ∧
    foldl (PolicyExecutor.load_rule registry) rules policies = rules ++ kept.
Proof.
  revert rules. induction policies as [|policy policies IH]; intros rules.
  - exists []. split; [constructor|]. simpl. by rewrite app_nil_r.
  - simpl. destruct (load_rule_cases registry rules policy)
      as [[Hskip ->]|(rule & Hrule & ->)].
    + destruct (IH rules) as (kept & Hkept & ->).
      exists kept. split; [by constructor|done].
    + destruct (IH (rules ++ [rule])) as (kept & Hkept & ->).
      exists (rule :: kept). split; [by constructor|].
      by rewrite <- app_assoc.
Qed.

Lemma insert_by_priority_Permutation (r : PolicyRule) (l : list PolicyRule) :
  insert_by_priority r l ≡ₚ r :: l.
Proof.
  induction l as [|r' l IH]; simpl; [done|].
  destruct (priority r <? priority r'); [|done].
  rewrite IH. apply Permutation_swap.
Qed.

Lemma sort_by_priority_reverse_Permutation (l : list PolicyRule) :
  sort_by_priority_reverse l ≡ₚ l.
Proof.
  induction l as [|r l IH]; simpl; [done|].
  by rewrite insert_by_priority_Permutation, IH.
Qed.

Lemma insert_by_priority_sorted (r : PolicyRule) (l : list PolicyRule) :
  StronglySorted LoadSpec.by_priority_descending l →
  StronglySorted LoadSpec.by_priority_descending (insert_by_priority r l).
Proof.
  unfold LoadSpec.by_priority_descending.
  induction 1 as [|r' l Hsorted IH Hall]; simpl.
  - repeat constructor.
  - destruct (Z.ltb_spec (priority r) (priority r')) as [Hlt|Hge].
    + constructor; [done|].
      rewrite insert_by_priority_Permutation.
      constructor; [lia|done].
    + constructor; [by constructor|].
      constructor; [done|].
      eapply Forall_impl; [exact Hall|]. simpl. intros; lia.
Qed.

Lemma sort_by_priority_reverse_sorted (l : list PolicyRule) :
  StronglySorted LoadSpec.by_priority_descending (sort_by_priority_reverse l).
Proof.
  induction l as [|r l IH]; simpl; [constructor|].
  by apply insert_by_priority_sorted.
Qed.

(** Inserting never carries a rule past one of the same priority. *)
Lemma insert_by_priority_stable (p : Z) (r : PolicyRule) (l : list PolicyRule) :
  LoadSpec.with_priority p (insert_by_priority r l)
  = LoadSpec.with_priority p (r :: l).
Proof.
  unfold LoadSpec.with_priority.
  induction l as [|r' l IH]; simpl; [done|].
  destruct (Z.ltb_spec (priority r) (priority r')) as [Hlt|Hge]; [|done].
  rewrite (filter_cons _ r'), IH, !filter_cons.
  repeat case_decide; try done; lia.
Qed.

Lemma sort_by_priority_reverse_stable (p : Z) (l : list PolicyRule) :
  LoadSpec.with_priority p (sort_by_priority_reverse l)
  = LoadSpec.with_priority p l.
Proof.
  induction l as [|r l IH]; simpl; [done|].
  rewrite insert_by_priority_stable.
  unfold LoadSpec.with_priority in *. by rewrite !filter_cons, IH.
Qed.

(** ** The aggregation loop, one field at a time *)

(** Exposes the branch of [aggregate_step] taken for a decision. *)
Ltac aggregate_step_cases st d :=
  unfold PolicyExecutor.aggregate_step, AggregateSpec.verdict;
  destruct (allowed d) eqn:?, (truthy_int (delay_seconds d)) eqn:?,
           (require_2fa d) eqn:?, (truthy_list (warnings d)) eqn:?;
  cbn [negb];
  repeat case_bool_decide;
  repeat match goal with
         | |- context [match agg_delay_seconds st with _ => _ end] =>
             destruct (agg_delay_seconds st) eqn:?
         | |- context [if (?a >? ?b) then _ else _] =>
             destruct (Z.gtb_spec a b)
         end;
  cbn [final_decision agg_blocking_rule agg_delay_seconds all_warnings
       all_actions agg_rules_evaluated].

Lemma aggregate_step_rules_evaluated (st : AggregateState)
    (rd : PolicyRule * PolicyDecision) :
  agg_rules_evaluated (PolicyExecutor.aggregate_step st rd)
  = agg_rules_evaluated st ++ [name (fst rd)].
Proof. destruct rd as [r d]. aggregate_step_cases st d; done. Qed.

Lemma aggregate_loop_rules_evaluated (ds : list (PolicyRule * PolicyDecision))
    (st : AggregateState) :
  agg_rules_evaluated (foldl PolicyExecutor.aggregate_step st ds)
  = agg_rules_evaluated st ++ ((λ rd, name (fst rd)) <$> ds).
Proof.
  revert st. induction ds as [|rd ds IH]; intros st; simpl.
  - by rewrite app_nil_r.
  - rewrite IH, aggregate_step_rules_evaluated. by rewrite <- app_assoc.
Qed.

Lemma aggregate_rules_evaluated (ds : list (PolicyRule * PolicyDecision)) :
  rules_evaluated (PolicyExecutor._aggregate_decisions ds)
  = (λ rd, name (fst rd)) <$> ds.
Proof.
  unfold PolicyExecutor._aggregate_decisions, PolicyExecutor.aggregate_result.
  cbn [rules_evaluated new_ExecutionResult].
  by rewrite aggregate_loop_rules_evaluated.
Qed.

Lemma all_return_decisions tx (rules : list PolicyRule) :
  Forall (λ r, ¬ raises_on tx r) rules →
  ∃ ds, Forall2 (returns_on tx) rules ds.
Proof.
  induction 1 as [|r rules Hr _ [ds IH]].
  - by exists [].
  - unfold raises_on, returns_on in *.
    destruct (evaluate r (policy_context tx)) as [d|message] eqn:Heval.
    + exists (d :: ds). by constructor.
    + destruct Hr. by exists message.
Qed.

(** Without duress and without a raising rule, the audit trail is the
    executor's rule list. *)
Lemma execute_rules_evaluated (self : PolicyExecutor) (tx : TransactionContext) :
  duress_mode_active tx = false →
  Forall (λ r, ¬ raises_on tx r) (rules self) →
  rules_evaluated (PolicyExecutor.execute self tx) = name <$> rules self.
Proof.
  intros Hduress Hok.
  destruct (all_return_decisions tx _ Hok) as [ds Hds].
  unfold PolicyExecutor.execute. rewrite Hduress.
  rewrite (evaluate_rules_all_return tx _ ds Hds).
  rewrite aggregate_rules_evaluated.
  apply fst_zip_names. by eapply Forall2_length.
Qed.

(** C4. [load_rules_from_config] leaves the registry alone and sets the
    rules to the instances of the records that are neither inactive nor of
    an unregistered type, each built by its registered class from the
    record's name, config and priority, sorted by descending priority with
    rules of equal priority in the order of their records.  A call of
    [execute] without duress in which no rule raises then reports the names
    of exactly these rules, in this order. *)
Theorem load_rules_sorted_then_evaluated (self : PolicyExecutor)
    (policies : list Policy) :
  let loaded := PolicyExecutor.load_rules_from_config self policies in
  _rule_registry loaded = _rule_registry self ∧
  ∃ kept,
    LoadSpec.loaded (_rule_registry self) policies kept ∧
    rules loaded ≡ₚ kept ∧
    StronglySorted LoadSpec.by_priority_descending (rules loaded) ∧
    (∀ p, LoadSpec.with_priority p (rules loaded)
          = LoadSpec.with_priority p kept) ∧
    ∀ tx, duress_mode_active tx = false →
          Forall (λ r, ¬ raises_on tx r) (rules loaded) →
          rules_evaluated (PolicyExecutor.execute loaded tx)
          = name <$> rules loaded.
Proof.
  intros loaded. split; [done|].
  destruct (load_loop_loaded (_rule_registry self) policies [])
    as (kept & Hkept & Hloop).
  exists kept. subst loaded. unfold PolicyExecutor.load_rules_from_config.
  cbn [rules]. rewrite Hloop, app_nil_l.
  split_and!.
  - done.
  - apply sort_by_priority_reverse_Permutation.
  - apply sort_by_priority_reverse_sorted.
  - intros p. apply sort_by_priority_reverse_stable.
  - intros tx Hduress Hok.
    by apply (execute_rules_evaluated
                {| rules := sort_by_priority_reverse kept;
                   _rule_registry := _rule_registry self |}).
Qed.

(** The mixed records, loaded and run on a transaction of 10000. *)
Lemma load_rules_sorted_then_evaluated_witness :
  let loaded :=
    PolicyExecutor.load_rules_from_config (executor Scenarios.evaluator)
      Scenarios.mixed_policies in
  rules_evaluated
    (PolicyExecutor.execute loaded
       (with_value_usd Scenarios.tx0 (Scenarios.usd 10000)))
  = name <$> rules loaded.
Proof.
  destruct (load_rules_sorted_then_evaluated (executor Scenarios.evaluator)
              Scenarios.mixed_policies)
    as (_ & kept & _ & _ & _ & _ & Hexecute).
  apply Hexecute.
  - reflexivity.
  - repeat constructor; intros [message Hraises];
      vm_compute in Hraises; discriminate.
Defined.

(** Loading the mixed records keeps three rules, the two of priority 5 in
    the order of their records, and the executor reports them in that
    order (the scenario of the unit test, REQUIRE_2FA, with a timelock
    added). *)
Example load_rules_mixed_policies :
  let loaded :=
    PolicyExecutor.load_rules_from_config (executor Scenarios.evaluator)
      Scenarios.mixed_policies in
  let result :=
    PolicyExecutor.execute loaded
      (with_value_usd Scenarios.tx0 (Scenarios.usd 10000)) in
  name <$> rules loaded = ["Velocity"; "Whitelist"; "Timelock"] ∧
  priority <$> rules loaded = [10; 5; 5] ∧
  rules_evaluated result = ["Velocity"; "Whitelist"; "Timelock"] ∧
  decision result = REQUIRE_2FA.
Proof. split_and!; vm_compute; reflexivity. Qed.

Lemma aggregate_step_warnings (st : AggregateState)
    (rd : PolicyRule * PolicyDecision) :
  all_warnings (PolicyExecutor.aggregate_step st rd)
  = all_warnings st ++ warnings (snd rd).
Proof. destruct rd as [r d]. aggregate_step_cases st d; done. Qed.

Lemma aggregate_loop_warnings (ds : list (PolicyRule * PolicyDecision))
    (st : AggregateState) (w : string) :
  w ∈ all_warnings (foldl PolicyExecutor.aggregate_step st ds)
  ↔ w ∈ all_warnings st ∨ ∃ rd, rd ∈ ds ∧ w ∈ warnings (snd rd).
Proof.
  revert st. induction ds as [|rd ds IH]; intros st; simpl.
  - split; [by left|]. intros [?|(rd & Hin & _)]; [done|]. by inversion Hin.
  - rewrite IH, aggregate_step_warnings, elem_of_app. split.
    + intros [[?|?]|(rd' & ? & ?)]; [by left| |].
      * right. exists rd. split; [left|done].
      * right. exists rd'. split; [by right|done].
    + intros [?|(rd' & Hin & ?)]; [by left; left|].
      apply elem_of_cons in Hin as [->|?]; [by left; right|].
      right. by exists rd'.
Qed.





(** Each step moves the running decision to the more restrictive of itself
    and the verdict of the decision at hand. *)
Lemma aggregate_step_decision (st : AggregateState)
    (rd : PolicyRule * PolicyDecision) :
  final_decision (PolicyExecutor.aggregate_step st rd)
  = AggregateSpec.most_restrictive (final_decision st)
      (AggregateSpec.verdict (snd rd)).
Proof.
  destruct rd as [r d]. cbn [snd].
  unfold PolicyExecutor.aggregate_step, AggregateSpec.verdict,
    AggregateSpec.most_restrictive.
  destruct (final_decision st), (allowed d), (truthy_int (delay_seconds d)),
    (require_2fa d), (truthy_list (warnings d)); cbn;
    repeat case_match; done.
Qed.

Lemma aggregate_loop_decision (ds : list (PolicyRule * PolicyDecision))
    (st : AggregateState) :
  final_decision (foldl PolicyExecutor.aggregate_step st ds)
  = foldl AggregateSpec.most_restrictive (final_decision st)
      ((λ rd, AggregateSpec.verdict (snd rd)) <$> ds).
Proof.
  revert st. induction ds as [|rd ds IH]; intros st; simpl; [done|].
  by rewrite IH, aggregate_step_decision.
Qed.

Lemma most_restrictive_fold_bound (vs : list DecisionType) (a v : DecisionType) :
  v ∈ a :: vs →
  (restrictiveness v ≤
   restrictiveness (foldl AggregateSpec.most_restrictive a vs))%nat.
Proof.
  revert a v. induction vs as [|v' vs IH]; intros a v Hin; simpl.
  - apply list_elem_of_singleton in Hin as ->. done.
  - assert (restrictiveness a ≤
            restrictiveness (AggregateSpec.most_restrictive a v') ∧
            restrictiveness v' ≤
            restrictiveness (AggregateSpec.most_restrictive a v'))%nat
      as [Ha Hv'].
    { unfold AggregateSpec.most_restrictive.
      destruct (Nat.ltb_spec (restrictiveness a) (restrictiveness v')); lia. }
    apply elem_of_cons in Hin as [->|Hin].
    + etrans; [exact Ha|]. apply IH. left.
    + apply elem_of_cons in Hin as [->|Hin].
      * etrans; [exact Hv'|]. apply IH. left.
      * apply IH. by right.
Qed.

Lemma most_restrictive_fold_elem (vs : list DecisionType) (a : DecisionType) :
  foldl AggregateSpec.most_restrictive a vs ∈ a :: vs.
Proof.
  revert a. induction vs as [|v' vs IH]; intros a; simpl; [left|].
  specialize (IH (AggregateSpec.most_restrictive a v')).
  apply elem_of_cons in IH as [->|IH].
  - unfold AggregateSpec.most_restrictive.
    destruct (_ <? _)%nat; [right; left|left].
  - by do 2 right.
Qed.

Lemma restrictiveness_inj (a b : DecisionType) :
  restrictiveness a = restrictiveness b → a = b.
Proof. destruct a, b; simpl; congruence. Qed.


(** *** Blocking *)

Lemma first_blocker_exists (ds : list (PolicyRule * PolicyDecision)) :
  Exists AggregateSpec.blocks ds → ∃ rd, AggregateSpec.first_blocker ds rd.
Proof.
  unfold AggregateSpec.first_blocker, AggregateSpec.blocks.
  induction ds as [|rd ds IH]; intros Hex; [by inversion Hex|].
  destruct (allowed (snd rd)) eqn:Hallowed.
  - assert (Exists (λ x, allowed (snd x) = false) ds) as Htail.
    { inversion Hex; subst; [congruence|done]. }
    destruct (IH Htail) as (rd' & before & after & -> & Hblocks & Hbefore).
    exists rd', (rd :: before), after. split_and!; [done|done|].
    constructor; [congruence|done].
  - exists rd, [], ds. split_and!; [done|done|constructor].
Qed.

Lemma aggregate_loop_not_blocked (ds : list (PolicyRule * PolicyDecision))
    (st : AggregateState) :
  final_decision st ≠ BLOCK →
  Forall (λ x, ¬ AggregateSpec.blocks x) ds →
  final_decision (foldl PolicyExecutor.aggregate_step st ds) ≠ BLOCK.
Proof.
  intros Hst Hds. revert st Hst.
  induction Hds as [|[r d] ds Hd _ IH]; intros st Hst; cbn [foldl]; [done|].
  apply IH. rewrite aggregate_step_decision. cbn [snd].
  unfold AggregateSpec.blocks in Hd. cbn [snd] in Hd.
  unfold AggregateSpec.most_restrictive, AggregateSpec.verdict.
  destruct (allowed d); [|done]. cbn [negb].
  destruct (final_decision st), (truthy_int (delay_seconds d)), (require_2fa d),
    (truthy_list (warnings d)); cbn; done.
Qed.

Lemma aggregate_step_blocks (st : AggregateState) (r : PolicyRule)
    (d : PolicyDecision) :
  final_decision st ≠ BLOCK → allowed d = false →
  final_decision (PolicyExecutor.aggregate_step st (r, d)) = BLOCK ∧
  agg_blocking_rule (PolicyExecutor.aggregate_step st (r, d)) = Some (name r).
Proof.
  intros Hst Hd. unfold PolicyExecutor.aggregate_step. rewrite Hd. cbn [negb].
  by rewrite bool_decide_eq_true_2.
Qed.

(** Once the running decision is BLOCK, neither it nor its attribution
    changes. *)
Lemma aggregate_loop_after_block (ds : list (PolicyRule * PolicyDecision))
    (st : AggregateState) :
  final_decision st = BLOCK →
  final_decision (foldl PolicyExecutor.aggregate_step st ds) = BLOCK ∧
  agg_blocking_rule (foldl PolicyExecutor.aggregate_step st ds)
  = agg_blocking_rule st.
Proof.
  revert st. induction ds as [|[r d] ds IH]; intros st Hst; cbn [foldl]; [done|].
  assert (final_decision (PolicyExecutor.aggregate_step st (r, d)) = BLOCK ∧
          agg_blocking_rule (PolicyExecutor.aggregate_step st (r, d))
          = agg_blocking_rule st) as [Hdec Hrule].
  { unfold PolicyExecutor.aggregate_step. rewrite Hst.
    destruct (allowed d), (truthy_int (delay_seconds d)), (require_2fa d), (truthy_list (warnings d));
      cbn; done. }
  destruct (IH _ Hdec) as [-> ->]. done.
Qed.

Lemma aggregate_first_blocker (ds : list (PolicyRule * PolicyDecision))
    (rd : PolicyRule * PolicyDecision) :
  AggregateSpec.first_blocker ds rd →
  let st := foldl PolicyExecutor.aggregate_step
              PolicyExecutor.aggregate_init ds in
  final_decision st = BLOCK ∧ agg_blocking_rule st = Some (name (fst rd)).
Proof.
  intros (before & after & -> & Hblocks & Hbefore). cbn zeta.
  rewrite foldl_app. cbn [foldl]. destruct rd as [r d].
  pose proof (aggregate_loop_not_blocked before
    PolicyExecutor.aggregate_init ltac:(done) Hbefore) as Hnot.
  destruct (aggregate_step_blocks _ r d Hnot Hblocks) as [Hdec Hrule].
  destruct (aggregate_loop_after_block after _ Hdec) as [-> ->]. done.
Qed.

(** *** Delays *)





(** *** 2FA, warnings and the unions *)





Lemma list_set_spec (xs : list string) :
  NoDup (list_set xs) ∧ ∀ x, x ∈ list_set xs ↔ x ∈ xs.
Proof.
  unfold list_set. split; [apply NoDup_elements|].
  intros x. by rewrite elem_of_elements, elem_of_list_to_set.
Qed.




(** ** Totality of the built-in rules *)



(** ** Raising the amount *)



Lemma aggregate_decision_verdicts (ds : list (PolicyRule * PolicyDecision)) :
  decision (PolicyExecutor._aggregate_decisions ds)
  = foldl AggregateSpec.most_restrictive ALLOW
      ((λ rd, AggregateSpec.verdict (snd rd)) <$> ds).
Proof.
  unfold PolicyExecutor._aggregate_decisions, PolicyExecutor.aggregate_result.
  cbn [decision new_ExecutionResult]. by rewrite aggregate_loop_decision.
Qed.










(** On that input the decision does move, from WARN to REQUIRE_2FA. *)
Example execute_monotone_scenario :
  decision (PolicyExecutor.execute Scenarios.test_executor
              (with_value_usd Scenarios.tx0 (Scenarios.usd 1000))) = WARN ∧
  decision (PolicyExecutor.execute Scenarios.test_executor
              (with_value_usd Scenarios.tx0 (Scenarios.usd 10000)))
  = REQUIRE_2FA.
Proof. split; vm_compute; reflexivity. Qed.


(** * Further properties of the engine *)

(** ** The two ways [execute] ends without duress *)

Lemma raises_or_all_return tx (rules : list PolicyRule) :
  Exists (raises_on tx) rules ∨ ∃ ds, Forall2 (returns_on tx) rules ds.
Proof.
  induction rules as [|r rules [Hex|[ds Hds]]].
  - right. by exists [].
  - left. by right.
  - destruct (evaluate r (policy_context tx)) as [d|message] eqn:Hr.
    + right. exists (d :: ds). by constructor.
    + left. left. by exists message.
Qed.

(** Without duress, either some rule raises and the result is the
    fail-closed one for the first such rule, or every rule returns and the
    result is the aggregation of the decisions. *)
Lemma execute_cases (self : PolicyExecutor) (tx : TransactionContext) :
  duress_mode_active tx = false →
  (∃ before rule after ds,
     rules self = before ++ rule :: after ∧
     Forall2 (returns_on tx) before ds ∧ raises_on tx rule ∧
     PolicyExecutor.execute self tx =
       new_ExecutionResult BLOCK
         (Some (name rule +:+ " (evaluation error)")) None [] []
         ((name <$> before) ++ [name rule])) ∨
  (∃ ds, Forall2 (returns_on tx) (rules self) ds ∧
     PolicyExecutor.execute self tx =
       PolicyExecutor._aggregate_decisions (zip (rules self) ds)).
Proof.
  intros Hduress. unfold PolicyExecutor.execute. rewrite Hduress.
  destruct (raises_or_all_return tx (rules self)) as [Hex|[ds Hds]].
  - left.
    destruct (first_raising_rule tx _ Hex)
      as (before & rule & after & ds & Hsplit & Hds & Hraise).
    exists before, rule, after, ds. split_and!; try done.
    rewrite Hsplit.
    rewrite (evaluate_rules_returning tx before (rule :: after) ds []) by done.
    destruct Hraise as [message Hraise]. simpl.
    unfold policy_context in Hraise. rewrite Hraise.
    do 2 f_equal. apply fst_zip_names. by eapply Forall2_length.
  - right. exists ds. split; [done|].
    by rewrite (evaluate_rules_all_return tx _ ds Hds).
Qed.

Lemma zip_returns_elem tx (rules : list PolicyRule) (ds : list PolicyDecision)
    (r : PolicyRule) (d : PolicyDecision) :
  Forall2 (returns_on tx) rules ds →
  (r, d) ∈ zip rules ds ↔ r ∈ rules ∧ returns_on tx r d.
Proof.
  induction 1 as [|r' d' rules ds Hr' _ IH]; simpl.
  - split; [by intros ?%elem_of_nil|by intros [?%elem_of_nil _]].
  - rewrite !elem_of_cons, IH. split.
    + intros [[= -> ->]|[? ?]]; [by split; [left|]|by split; [right|]].
    + intros [[->|?] Hr]; [left|by right].
      unfold returns_on in *. congruence.
Qed.

Lemma aggregate_decision_block (ds : list (PolicyRule * PolicyDecision)) :
  decision (PolicyExecutor._aggregate_decisions ds) = BLOCK
  ↔ Exists AggregateSpec.blocks ds.
Proof.
  unfold PolicyExecutor._aggregate_decisions, PolicyExecutor.aggregate_result.
  cbn [decision new_ExecutionResult]. split.
  - intros Hblock.
    destruct (Exists_dec AggregateSpec.blocks ds) as [Hex|Hnone]; [done|].
    apply not_Exists_Forall in Hnone; [|intros rd; apply _].
    by pose proof (aggregate_loop_not_blocked ds
      PolicyExecutor.aggregate_init ltac:(done) Hnone).
  - intros Hex. destruct (first_blocker_exists ds Hex) as [rd Hrd].
    by destruct (aggregate_first_blocker ds rd Hrd).
Qed.

(** ** When is a transaction blocked *)

(** X1. Without duress, [execute] answers BLOCK exactly when some rule
    raises or some rule refuses the transaction. *)
Theorem execute_blocks_iff (self : PolicyExecutor) (tx : TransactionContext) :
  duress_mode_active tx = false →
  decision (PolicyExecutor.execute self tx) = BLOCK
  ↔ Exists (raises_on tx) (rules self) ∨
    Exists (ResultSpec.refuses tx) (rules self).
Proof.
  intros Hduress.
  destruct (execute_cases self tx Hduress)
    as [(before & rule & after & ds & Hsplit & Hds & Hraise & ->)
       |(ds & Hds & ->)].
  - split; [|done]. intros _. left. rewrite Hsplit.
    apply Exists_app. right. by left.
  - rewrite aggregate_decision_block, !Exists_exists. split.
    + intros ([r d] & Hin & Hblocks). right.
      apply (zip_returns_elem tx _ _ r d Hds) in Hin as [Hr Hret].
      exists r. split; [done|]. by exists d.
    + intros [(r & Hr & message & Hraise)|(r & Hr & d & Hret & Hd)].
      * exfalso. rewrite Forall2_lookup in Hds.
        apply list_elem_of_lookup in Hr as [i Hi].
        specialize (Hds i). rewrite Hi in Hds.
        inversion Hds as [? d' Hret|]; subst.
        unfold returns_on in Hret. congruence.
      * exists (r, d). split; [|done].
        by apply (zip_returns_elem tx _ _ r d Hds).
Qed.

Lemma execute_blocks_iff_witness :
  decision (PolicyExecutor.execute Scenarios.failing_executor Scenarios.tx0)
    = BLOCK
  ↔ Exists (raises_on Scenarios.tx0) (rules Scenarios.failing_executor) ∨
    Exists (ResultSpec.refuses Scenarios.tx0)
      (rules Scenarios.failing_executor).
Proof.
  apply (execute_blocks_iff Scenarios.failing_executor Scenarios.tx0).
  reflexivity.
Defined.

(** ** The audit trail *)

(** X2. Without duress, the audit trail is a prefix of the names of the
    executor's rules in their order: no rule is reported that was not
    configured, none is reported twice or out of order. *)
Theorem execute_rules_evaluated_prefix (self : PolicyExecutor)
    (tx : TransactionContext) :
  duress_mode_active tx = false →
  rules_evaluated (PolicyExecutor.execute self tx)
    `prefix_of` (name <$> rules self).
Proof.
  intros Hduress.
  destruct (execute_cases self tx Hduress)
    as [(before & rule & after & ds & Hsplit & Hds & Hraise & ->)
       |(ds & Hds & ->)].
  - cbn [rules_evaluated new_ExecutionResult]. rewrite Hsplit, fmap_app.
    apply prefix_app. cbn [fmap list_fmap]. by exists (name <$> after).
  - rewrite aggregate_rules_evaluated, fst_zip_names
      by (by eapply Forall2_length).
    done.
Qed.

Lemma execute_rules_evaluated_prefix_witness :
  rules_evaluated
    (PolicyExecutor.execute Scenarios.failing_executor Scenarios.tx0)
    `prefix_of` (name <$> rules Scenarios.failing_executor).
Proof.
  apply (execute_rules_evaluated_prefix Scenarios.failing_executor
           Scenarios.tx0).
  reflexivity.
Defined.

(** ** Consistency of the result *)

Lemma truthy_int_default (o : option Z) :
  truthy_int o = true → o = Some (default 0 o) ∧ default 0 o ≠ 0.
Proof.
  destruct o as [z|]; simpl; [|done].
  rewrite negb_true_iff, Z.eqb_neq. done.
Qed.

Lemma aggregate_step_consistent (st : AggregateState)
    (rd : PolicyRule * PolicyDecision) :
  ResultSpec.consistent st →
  ResultSpec.consistent (PolicyExecutor.aggregate_step st rd).
Proof.
  destruct rd as [r d]. unfold ResultSpec.consistent.
  unfold PolicyExecutor.aggregate_step.
  destruct (truthy_int (delay_seconds d)) eqn:Hdelay.
  - destruct (truthy_int_default _ Hdelay) as [_ Hne].
    destruct (final_decision st), (allowed d); cbn;
      repeat case_match; cbn; intros Hst;
      repeat match goal with
             | H : ∃ _, _ |- _ => destruct H
             | H : _ ∧ _ |- _ => destruct H
             end;
      simplify_eq;
      try (eexists; split; [done|]; set_solver);
      try (do 2 eexists; split_and!; [done| |done|done]; set_solver).
  - destruct (final_decision st), (allowed d), (require_2fa d),
      (truthy_list (warnings d)); cbn; intros Hst;
      repeat match goal with
             | H : ∃ _, _ |- _ => destruct H
             | H : _ ∧ _ |- _ => destruct H
             end;
      simplify_eq; try done;
      try (eexists; split; [done|]; set_solver);
      try (do 2 eexists; split_and!; [done| |done|done]; set_solver).
Qed.

Lemma aggregate_loop_consistent (ds : list (PolicyRule * PolicyDecision))
    (st : AggregateState) :
  ResultSpec.consistent st →
  ResultSpec.consistent (foldl PolicyExecutor.aggregate_step st ds).
Proof.
  revert st. induction ds as [|rd ds IH]; intros st Hst; cbn [foldl]; [done|].
  by apply IH, aggregate_step_consistent.
Qed.

(** X3. Whatever the executor and the transaction, the fields of the
    result of [execute] agree with its decision: a blocking rule is named
    exactly for BLOCK and DELAY; a DELAY carries a delay other than 0
    and is attributed to a rule of the audit trail; ALLOW, WARN and
    REQUIRE_2FA carry no delay; and neither the warnings nor the required
    actions repeat an entry. *)
Theorem execute_result_consistent (self : PolicyExecutor)
    (tx : TransactionContext) :
  let result := PolicyExecutor.execute self tx in
  (decision result = BLOCK ∨ decision result = DELAY
   ↔ is_Some (blocking_rule result)) ∧
  (decision result = DELAY →
     ∃ s n, result_delay_seconds result = Some s ∧ s ≠ 0 ∧
            blocking_rule result = Some n ∧ n ∈ rules_evaluated result) ∧
  (decision result ≠ BLOCK → decision result ≠ DELAY →
     result_delay_seconds result = None) ∧
  NoDup (result_warnings result) ∧
  NoDup (result_required_actions result).
Proof.
  cbn zeta. destruct (duress_mode_active tx) eqn:Hduress.
  { unfold PolicyExecutor.execute. rewrite Hduress. cbn.
    split_and!; try done.
    - split; [by intros [?|?]|by intros [? ?]].
    - apply NoDup_singleton.
    - constructor. }
  destruct (execute_cases self tx Hduress)
    as [(before & rule & after & ds & Hsplit & Hds & Hraise & ->)
       |(ds & Hds & ->)].
  { cbn. split_and!; [|done|done|constructor|constructor].
    split; [by eexists|by left]. }
  unfold PolicyExecutor._aggregate_decisions, PolicyExecutor.aggregate_result.
  pose proof (aggregate_loop_consistent (zip (rules self) ds)
    PolicyExecutor.aggregate_init ltac:(by split)) as Hst.
  set (st := foldl PolicyExecutor.aggregate_step
               PolicyExecutor.aggregate_init (zip (rules self) ds)) in *.
  unfold ResultSpec.consistent in Hst.
  cbn [decision blocking_rule result_delay_seconds result_warnings
       result_required_actions rules_evaluated new_ExecutionResult].
  destruct (list_set_spec (all_warnings st)) as [Hw _].
  destruct (list_set_spec (all_actions st)) as [Ha _].
  destruct (final_decision st) eqn:Hdec; cbn [bool_decide andb];
    split_and!; try done.
  - destruct Hst as [-> _]. split; [by intros [?|?]|by intros [? ?]].
  - by destruct Hst as [_ ->].
  - destruct Hst as (n & -> & _). split; [by eexists|by left].
  - destruct Hst as (n & s & -> & _). split; [by eexists|by right].
  - intros _. destruct Hst as (n & s & Hrule & Hin & Hdelay & Hs).
    exists s, n. rewrite Hdelay. cbn [truthy_int].
    destruct (Z.eqb_spec s 0); [done|]. cbn. done.
  - destruct Hst as [-> _]. split; [by intros [?|?]|by intros [? ?]].
  - by destruct Hst as [_ ->].
  - destruct Hst as [-> _]. split; [by intros [?|?]|by intros [? ?]].
  - by destruct Hst as [_ ->].
Qed.

Lemma verdict_allow_no_warnings (d : PolicyDecision) :
  AggregateSpec.verdict d = ALLOW → warnings d = [].
Proof.
  unfold AggregateSpec.verdict.
  destruct (allowed d), (truthy_int (delay_seconds d)), (require_2fa d),
    (warnings d); cbn; done.
Qed.

Lemma aggregate_allow_no_warnings (ds : list (PolicyRule * PolicyDecision)) :
  decision (PolicyExecutor._aggregate_decisions ds) = ALLOW →
  result_warnings (PolicyExecutor._aggregate_decisions ds) = [].
Proof.
  rewrite aggregate_decision_verdicts. intros Hallow.
  unfold PolicyExecutor._aggregate_decisions, PolicyExecutor.aggregate_result.
  cbn [result_warnings new_ExecutionResult].
  assert (all_warnings (foldl PolicyExecutor.aggregate_step
                          PolicyExecutor.aggregate_init ds) = []) as ->.
  { destruct (all_warnings _) as [|w ws] eqn:Hws; [done|]. exfalso.
    assert (w ∈ all_warnings (foldl PolicyExecutor.aggregate_step
                                PolicyExecutor.aggregate_init ds)) as Hin
      by (rewrite Hws; left).
    apply aggregate_loop_warnings in Hin as [Hin|(rd & Hrd & Hin)];
      [by inversion Hin|].
    pose proof (most_restrictive_fold_bound
      ((λ rd, AggregateSpec.verdict (snd rd)) <$> ds) ALLOW
      (AggregateSpec.verdict (snd rd))) as Hbound.
    rewrite Hallow in Hbound.
    assert (AggregateSpec.verdict (snd rd) = ALLOW) as Hverdict.
    { apply restrictiveness_inj, Nat.le_antisymm; [|simpl; lia].
      apply Hbound. right. apply list_elem_of_fmap. by exists rd. }
    apply verdict_allow_no_warnings in Hverdict. rewrite Hverdict in Hin.
    by inversion Hin. }
  unfold list_set. by rewrite list_to_set_nil, elements_empty.
Qed.

(** X4. Without duress an ALLOW never carries a warning; so no evaluation
    without duress returns the result that [execute] returns under duress
    (ALLOW with the warning DURESS_MODE_ACTIVE), whatever the rules are. *)
Theorem execute_never_mimics_duress (self : PolicyExecutor)
    (tx : TransactionContext) :
  duress_mode_active tx = false →
  (decision (PolicyExecutor.execute self tx) = ALLOW →
   result_warnings (PolicyExecutor.execute self tx) = []) ∧
  PolicyExecutor.execute self tx ≠ ResultSpec.duress_result.
Proof.
  intros Hduress.
  assert (decision (PolicyExecutor.execute self tx) = ALLOW →
          result_warnings (PolicyExecutor.execute self tx) = []) as Hsilent.
  { destruct (execute_cases self tx Hduress)
      as [(before & rule & after & ds & Hsplit & Hds & Hraise & ->)
         |(ds & Hds & ->)]; [done|].
    apply aggregate_allow_no_warnings. }
  split; [done|]. intros Heq. rewrite Heq in Hsilent.
  by specialize (Hsilent eq_refl).
Qed.

Lemma execute_never_mimics_duress_witness :
  (decision (PolicyExecutor.execute Scenarios.test_executor Scenarios.tx0)
     = ALLOW →
   result_warnings
     (PolicyExecutor.execute Scenarios.test_executor Scenarios.tx0) = []) ∧
  PolicyExecutor.execute Scenarios.test_executor Scenarios.tx0
    ≠ ResultSpec.duress_result.
Proof.
  apply (execute_never_mimics_duress Scenarios.test_executor Scenarios.tx0).
  reflexivity.
Defined.

(** ** What the order of the rules does not change *)



(** ** Adding rules *)

Lemma restrictiveness_le_block (v : DecisionType) :
  (restrictiveness v ≤ restrictiveness BLOCK)%nat.
Proof. destruct v; simpl; lia. Qed.

(** X6. Adding rules to an executor, anywhere in its list, never relaxes
    the decision for a transaction. *)
Theorem execute_more_rules_never_relax (self self' : PolicyExecutor)
    (tx : TransactionContext) :
  rules self `sublist_of` rules self' →
  (restrictiveness (decision (PolicyExecutor.execute self tx)) ≤
   restrictiveness (decision (PolicyExecutor.execute self' tx)))%nat.
Proof.
  intros Hsub. destruct (duress_mode_active tx) eqn:Hduress.
  { unfold PolicyExecutor.execute. by rewrite Hduress. }
  destruct (execute_cases self' tx Hduress)
    as [(before' & rule' & after' & ds' & _ & _ & _ & ->)
       |(ds' & Hds' & ->)].
  { apply restrictiveness_le_block. }
  destruct (execute_cases self tx Hduress)
    as [(before & rule & after & ds & Hsplit & _ & [message Hraise] & _)
       |(ds & Hds & ->)].
  { exfalso.
    assert (rule ∈ rules self') as Hin.
    { eapply elem_of_sublist; [|exact Hsub]. rewrite Hsplit.
      apply elem_of_app. right. left. }
    apply list_elem_of_lookup in Hin as [i Hi].
    rewrite Forall2_lookup in Hds'. specialize (Hds' i). rewrite Hi in Hds'.
    inversion Hds' as [? d' Hret|]; subst.
    unfold returns_on in Hret. congruence. }
  rewrite !aggregate_decision_verdicts.
  set (vs := (λ rd, AggregateSpec.verdict (snd rd)) <$> zip (rules self) ds).
  pose proof (most_restrictive_fold_elem vs ALLOW) as Hin.
  apply elem_of_cons in Hin as [->|Hin]; [simpl; lia|].
  apply most_restrictive_fold_bound. right.
  subst vs. apply list_elem_of_fmap in Hin as ([r d] & -> & Hrd).
  apply list_elem_of_fmap. exists (r, d). split; [done|].
  apply (zip_returns_elem tx _ _ r d Hds) in Hrd as [Hr Hret].
  apply (zip_returns_elem tx _ _ r d Hds'). split; [|done].
  by eapply elem_of_sublist.
Qed.

Lemma execute_more_rules_never_relax_witness :
  (restrictiveness
     (decision (PolicyExecutor.execute Scenarios.test_executor Scenarios.tx0))
   ≤ restrictiveness
       (decision (PolicyExecutor.execute Scenarios.stricter_executor
                    Scenarios.tx0)))%nat.
Proof.
  apply (execute_more_rules_never_relax Scenarios.test_executor
           Scenarios.stricter_executor Scenarios.tx0).
  apply sublist_skip, sublist_cons, sublist_skip. constructor.
Defined.

(** ** More on loading *)

Lemma skipped_not_instantiated (registry : gmap string RuleClass)
    (policy : Policy) (rule : PolicyRule) :
  LoadSpec.skipped registry policy →
  LoadSpec.instantiates registry policy rule → False.
Proof.
  intros [Hoff|[Hnone|(rt & Hrt & Hmiss)]] (Hon & rt' & cls & Hrt' & Hcls & _).
  - done.
  - congruence.
  - rewrite Hrt in Hrt'. injection Hrt' as <-.
    unfold RuleClass in *. rewrite Hmiss in Hcls. discriminate.
Qed.

Lemma instantiates_functional (registry : gmap string RuleClass)
    (policy : Policy) (r1 r2 : PolicyRule) :
  LoadSpec.instantiates registry policy r1 →
  LoadSpec.instantiates registry policy r2 → r1 = r2.
Proof.
  intros (_ & rt1 & cls1 & Hrt1 & Hcls1 & ->) (_ & rt2 & cls2 & Hrt2 & Hcls2 & ->).
  rewrite Hrt1 in Hrt2. injection Hrt2 as <-.
  unfold RuleClass in *. rewrite Hcls1 in Hcls2. by injection Hcls2 as <-.
Qed.

Lemma loaded_functional (registry : gmap string RuleClass)
    (policies : list Policy) (kept1 kept2 : list PolicyRule) :
  LoadSpec.loaded registry policies kept1 →
  LoadSpec.loaded registry policies kept2 → kept1 = kept2.
Proof.
  intros H1. revert kept2.
  induction H1 as [|policy policies kept1 Hskip _ IH
                   |policy policies r1 kept1 Hr1 _ IH];
    intros kept2 H2; inversion H2; subst; try done.
  - by apply IH.
  - exfalso. by eapply skipped_not_instantiated.
  - exfalso. by eapply skipped_not_instantiated.
  - f_equal; [by eapply instantiates_functional|by apply IH].
Qed.

Lemma load_rules_kept (self : PolicyExecutor) (policies : list Policy)
    (kept : list PolicyRule) :
  LoadSpec.loaded (_rule_registry self) policies kept →
  rules (PolicyExecutor.load_rules_from_config self policies)
  = sort_by_priority_reverse kept.
Proof.
  intros Hkept.
  destruct (load_loop_loaded (_rule_registry self) policies [])
    as (kept' & Hkept' & Hloop).
  unfold PolicyExecutor.load_rules_from_config. cbn [rules].
  rewrite Hloop, app_nil_l. f_equal. by eapply loaded_functional.
Qed.

Lemma sort_by_priority_reverse_sorted_id (l : list PolicyRule) :
  StronglySorted LoadSpec.by_priority_descending l →
  sort_by_priority_reverse l = l.
Proof.
  unfold LoadSpec.by_priority_descending.
  induction 1 as [|r l Hsorted IH Hall]; simpl; [done|].
  rewrite IH. destruct Hall as [|r' l Hr' _]; simpl; [done|].
  destruct (Z.ltb_spec (priority r) (priority r')); [lia|done].
Qed.

(** X7. When the rules instantiated from the records come with priorities
    that do not increase, [load_rules_from_config] keeps them in the order
    of the records. *)
Theorem load_rules_keeps_sorted_order (self : PolicyExecutor)
    (policies : list Policy) (kept : list PolicyRule) :
  LoadSpec.loaded (_rule_registry self) policies kept →
  StronglySorted LoadSpec.by_priority_descending kept →
  rules (PolicyExecutor.load_rules_from_config self policies) = kept.
Proof.
  intros Hkept Hsorted. rewrite (load_rules_kept self policies kept Hkept).
  by apply sort_by_priority_reverse_sorted_id.
Qed.

Lemma load_rules_keeps_sorted_order_witness :
  rules (PolicyExecutor.load_rules_from_config (executor Scenarios.evaluator)
           Scenarios.ordered_policies)
  = Scenarios.ordered_rules.
Proof.
  apply (load_rules_keeps_sorted_order (executor Scenarios.evaluator)
           Scenarios.ordered_policies Scenarios.ordered_rules).
  - repeat (apply LoadSpec.loaded_keep;
            [split; [discriminate|];
             do 2 eexists; split; [reflexivity|]; split; reflexivity|]).
    apply LoadSpec.loaded_nil.
  - unfold LoadSpec.by_priority_descending.
    repeat (constructor; [|repeat constructor; simpl; lia]). constructor.
Defined.

(** X8. Registering a class under a type makes an active record of that
    type load as an instance of that class, built from the record's name,
    config and priority with their defaults, whatever was registered under
    the type before; the other types of the registry and the rules of the
    executor are left as they were. *)
Theorem register_rule_then_load (self : PolicyExecutor) (rule_type : string)
    (rule_class : RuleClass) (policy : Policy) :
  policy_rule_type policy = Some rule_type →
  policy_is_active policy ≠ Some false →
  let registered := PolicyExecutor.register_rule self rule_type rule_class in
  rules (PolicyExecutor.load_rules_from_config registered [policy])
  = [rule_class (default rule_type (policy_name policy))
                (default empty_config (policy_config policy))
                (default 0 (policy_priority policy))] ∧
  rules registered = rules self ∧
  ∀ other, other ≠ rule_type →
    _rule_registry registered !! other = _rule_registry self !! other.
Proof.
  intros Htype Hactive. cbn zeta. split_and!.
  - unfold PolicyExecutor.load_rules_from_config, PolicyExecutor.load_rule.
    cbn [foldl rules _rule_registry PolicyExecutor.register_rule].
    rewrite Htype, lookup_insert_eq.
    destruct (policy_is_active policy) as [[]|]; cbn; done.
  - done.
  - intros other Hother. cbn. by rewrite lookup_insert_ne.
Qed.

Lemma register_rule_then_load_witness :
  let policy :=
    Scenarios.policy "whitelist" "Mine" 3 true Scenarios.block_unknown_config in
  let registered :=
    PolicyExecutor.register_rule (executor Scenarios.evaluator) "whitelist"
      Scenarios.velocity_rule in
  rules (PolicyExecutor.load_rules_from_config registered [policy])
  = [Scenarios.velocity_rule "Mine" Scenarios.block_unknown_config 3] ∧
  rules registered = rules (executor Scenarios.evaluator) ∧
  ∀ other, other ≠ "whitelist" →
    _rule_registry registered !! other
    = _rule_registry (executor Scenarios.evaluator) !! other.
Proof.
  apply (register_rule_then_load (executor Scenarios.evaluator) "whitelist"
           Scenarios.velocity_rule
           (Scenarios.policy "whitelist" "Mine" 3 true
              Scenarios.block_unknown_config)).
  - reflexivity.
  - discriminate.
Defined.

(** ** Records that cannot be loaded *)

(** X9. When every record is inactive or of a type that is not registered,
    [evaluate_transaction] without duress allows the transaction with an
    empty audit trail: a record it cannot load restricts nothing. *)
Theorem evaluate_transaction_skipped_allows (self : PolicyEvaluator)
    (user_id user_tier chain to_address : string)
    (policies : list Policy) (value_usd daily_outflow_usd : Qc)
    (is_new is_contract_call contract_verified : bool) (utcnow : datetime) :
  Forall (LoadSpec.skipped (_rule_registry (executor self))) policies →
  snd (PolicyEvaluator.evaluate_transaction self user_id user_tier policies
         chain to_address value_usd daily_outflow_usd is_new is_contract_call
         contract_verified false utcnow)
  = {| decision := ALLOW; blocking_rule := None;
       result_delay_seconds := None; result_warnings := [];
       result_required_actions := []; rules_evaluated := [] |}.
Proof.
  intros Hskipped.
  assert (LoadSpec.loaded (_rule_registry (executor self)) policies [])
    as Hloaded.
  { induction Hskipped; by constructor. }
  unfold PolicyEvaluator.evaluate_transaction. cbn [snd].
  unfold PolicyExecutor.execute.
  cbn [duress_mode_active PolicyEvaluator.build_context].
  rewrite (load_rules_kept _ _ [] Hloaded). reflexivity.
Qed.

Lemma evaluate_transaction_skipped_allows_witness :
  snd (PolicyEvaluator.evaluate_transaction Scenarios.evaluator
         "user123" "humpback" Scenarios.skipped_policies "ethereum" "0x123"
         (Scenarios.usd 50000) (Scenarios.usd 0) true false false false
         Scenarios.monday_noon)
  = {| decision := ALLOW; blocking_rule := None;
       result_delay_seconds := None; result_warnings := [];
       result_required_actions := []; rules_evaluated := [] |}.
Proof.
  apply (evaluate_transaction_skipped_allows Scenarios.evaluator).
  apply Forall_cons_2; [by left|].
  apply Forall_cons_2; [|apply Forall_nil_2].
  right. right. exists "velocty". split; reflexivity.
Defined.

(** ** The hour window *)

(** X10. A window whose start and end coincide blocks no hour at all, and a
    window with distinct bounds blocks exactly the hours that the window
    with the bounds exchanged leaves free. *)
Theorem blocked_period_complement (current start end_ : Z) :
  (start = end_ →
     TimelockRule._is_in_blocked_period current start end_ = false) ∧
  (start ≠ end_ →
     TimelockRule._is_in_blocked_period current start end_
     = negb (TimelockRule._is_in_blocked_period current end_ start)).
Proof.
  unfold TimelockRule._is_in_blocked_period. split; intros Hbounds.
  - subst. rewrite Z.leb_refl.
    destruct (Z.leb_spec end_ current), (Z.ltb_spec current end_);
      simpl; try done; lia.
  - destruct (Z.leb_spec start end_), (Z.leb_spec end_ start),
      (Z.leb_spec start current), (Z.ltb_spec current end_),
      (Z.geb_spec current start), (Z.geb_spec current end_),
      (Z.ltb_spec current start), (Z.leb_spec end_ current);
      simpl; try done; lia.
Qed.

Lemma blocked_hours_table :
  forallb (λ s, forallb (λ e,
    length (WindowSpec.blocked_hours_of_day s e)
    =? Z.to_nat ((e - s) `mod` 24))%nat (seqZ 0 24)) (seqZ 0 24) = true.
Proof. vm_compute. reflexivity. Qed.

(** X11. For bounds between 0 and 23, the window blocks (end − start)
    modulo 24 of the 24 hours of a day. *)
Theorem blocked_period_hours_per_day (start end_ : Z) :
  0 ≤ start ≤ 23 → 0 ≤ end_ ≤ 23 →
  length (WindowSpec.blocked_hours_of_day start end_)
  = Z.to_nat ((end_ - start) `mod` 24).
Proof.
  intros Hs He. pose proof blocked_hours_table as Htable.
  rewrite forallb_forall in Htable.
  specialize (Htable start). rewrite forallb_forall in Htable.
  apply Nat.eqb_eq, Htable; apply list_elem_of_In, elem_of_seqZ; lia.
Qed.

Lemma blocked_period_hours_per_day_witness :
  length (WindowSpec.blocked_hours_of_day 23 6) = Z.to_nat ((6 - 23) `mod` 24).
Proof. apply (blocked_period_hours_per_day 23 6); lia. Defined.

(** ** Validated timelock rules *)

Lemma timelock_validated `{TimezoneDatabase} (cfg : Config) :
  TimelockRule.validate_config cfg = [] →
  (∀ s, block_start_hour cfg = Some s → 0 ≤ s ≤ 23) ∧
  (∀ e, block_end_hour cfg = Some e → 0 ≤ e ≤ 23) ∧
  (block_start_hour cfg = None ↔ block_end_hour cfg = None).
Proof.
  unfold TimelockRule.validate_config.
  destruct (block_start_hour cfg) as [s|], (block_end_hour cfg) as [e|];
    repeat match goal with
           | |- context [if ?b then _ else _] => destruct b eqn:?
           end;
    cbn; intros Herrors; try discriminate; split_and!; try done;
    intros ? [= <-];
    repeat match goal with
           | H : negb _ = false |- _ => apply negb_false_iff in H
           | H : _ && _ = true |- _ => apply andb_true_iff in H as [? ?]
           end; lia.
Qed.

(** X12. For a timelock configuration that [validate_config] accepts and
    an hour between 0 and 23: when the rule blocks by its hour window, the
    reason announces a number of hours between 1 and 23 after which the
    clock shows the end of the window; every hour until then is blocked,
    and that hour is not. *)
Theorem timelock_validated_retry_hint `{Runtime} `{TimezoneDatabase}
    (cfg : Config) (context : PolicyContext) (s e : Z) :
  let h := hour (TimelockSpec.converted cfg context) in
  TimelockRule.validate_config cfg = [] →
  0 ≤ h ≤ 23 →
  block_start_hour cfg = Some s → block_end_hour cfg = Some e →
  ¬ TimelockSpec.weekend_block cfg context →
  TimelockRule._is_in_blocked_period h s e = true →
  ∃ n,
    TimelockRule.evaluate cfg context
      = Returns (PolicyDecision.block (WindowSpec.reason_with cfg s e n)) ∧
    1 ≤ n ≤ 23 ∧
    (h + n) `mod` 24 = e ∧
    (∀ k, 0 ≤ k < n →
       TimelockRule._is_in_blocked_period ((h + k) `mod` 24) s e = true) ∧
    TimelockRule._is_in_blocked_period ((h + n) `mod` 24) s e = false.
Proof.
  intros h Hvalid Hh Hs He Hweekend Hblocked.
  destruct (timelock_validated cfg Hvalid) as (Hs_range & He_range & _).
  specialize (Hs_range s Hs). specialize (He_range e He).
  exists (if e >? h then e - h else 24 - h + e). split.
  { unfold TimelockRule.evaluate.
    change (match astimezone (ctx_current_time context)
                    (default "UTC" (timezone cfg)) with
            | Some converted => converted
            | None => ctx_current_time context
            end) with (TimelockSpec.converted cfg context).
    fold h.
    destruct (truthy_bool (block_weekends cfg) && _) eqn:Hw.
    { by apply weekend_test in Hw. }
    rewrite Hs, He, Hblocked. reflexivity. }
  apply blocked_period_window in Hblocked.
  unfold TimelockSpec.in_window in Hblocked.
  assert (∀ x, TimelockRule._is_in_blocked_period x s e = false
               ↔ ¬ TimelockSpec.in_window s e x) as Hfree.
  { intros x. by rewrite <- blocked_period_window, not_true_iff_false. }
  destruct (Z.gtb_spec e h) as [Hgt|Hle]; split_and!; try lia.
  - rewrite Z.mod_small by lia. lia.
  - intros k Hk. rewrite Z.mod_small by lia.
    apply blocked_period_window. unfold TimelockSpec.in_window. lia.
  - apply Hfree. unfold TimelockSpec.in_window.
    rewrite Z.mod_small by lia. lia.
  - replace (h + (24 - h + e)) with (e + 1 * 24) by lia.
    rewrite Z.mod_add by lia. apply Z.mod_small. lia.
  - intros k Hk. apply blocked_period_window. unfold TimelockSpec.in_window.
    destruct (Z.lt_ge_cases (h + k) 24).
    + rewrite Z.mod_small by lia. lia.
    + replace (h + k) with (h + k - 24 + 1 * 24) by lia.
      rewrite Z.mod_add by lia. rewrite Z.mod_small by lia. lia.
  - apply Hfree. unfold TimelockSpec.in_window.
    replace (h + (24 - h + e)) with (e + 1 * 24) by lia.
    rewrite Z.mod_add by lia. rewrite Z.mod_small by lia. lia.
Qed.

Lemma timelock_validated_retry_hint_witness :
  ∃ n,
    @TimelockRule.evaluate Scenarios.runtime Scenarios.overnight_config
      (Scenarios.context_at 739922 2)
      = Returns (PolicyDecision.block
          (WindowSpec.reason_with Scenarios.overnight_config 23 6 n)) ∧
    1 ≤ n ≤ 23 ∧
    (2 + n) `mod` 24 = 6 ∧
    (∀ k, 0 ≤ k < n →
       TimelockRule._is_in_blocked_period ((2 + k) `mod` 24) 23 6 = true) ∧
    TimelockRule._is_in_blocked_period ((2 + n) `mod` 24) 23 6 = false.
Proof.
  apply (@timelock_validated_retry_hint Scenarios.runtime Scenarios.timezones
           Scenarios.overnight_config (Scenarios.context_at 739922 2) 23 6).
  - reflexivity.
  - vm_compute. split; discriminate.
  - reflexivity.
  - reflexivity.
  - intros [_ [Hday|Hday]]; vm_compute in Hday; discriminate.
  - reflexivity.
Defined.

(** ** Validated whitelist and velocity rules *)

(** X13. For a whitelist configuration that [validate_config] accepts,
    every delay the rule returns is a positive whole number of hours, the
    configured quarantine, and comes with an allowing decision: a validated
    rule never returns a negative delay. *)
Theorem whitelist_validated_delay (cfg : Config) (context : PolicyContext)
    (d : PolicyDecision) (seconds : Z) :
  WhitelistRule.validate_config cfg = [] →
  WhitelistRule.evaluate cfg context = Returns d →
  delay_seconds d = Some seconds →
  ∃ hours, quarantine_hours_for_new cfg = Some hours ∧ 0 < hours ∧
           seconds = hours * 3600 ∧ allowed d = true.
Proof.
  unfold WhitelistRule.validate_config, WhitelistRule.evaluate.
  intros Hvalid Heval Hdelay.
  destruct (quarantine_hours_for_new cfg) as [hours|] eqn:Hq;
    cbn [truthy_int from_option id] in Heval;
    repeat match type of Heval with
           | context [if ?b then _ else _] => destruct b eqn:?
           end;
    injection Heval as <-; cbn in Hdelay; try discriminate.
  injection Hdelay as <-. exists hours.
  destruct (Z.ltb_spec hours 0) as [Hneg|Hpos].
  { destruct (truthy_str (mode cfg) && _); discriminate. }
  match goal with
  | Hne : negb (hours =? 0) = true |- _ =>
      apply negb_true_iff, Z.eqb_neq in Hne
  end.
  split_and!; try done; lia.
Qed.

Lemma whitelist_validated_delay_witness :
  ∃ hours, quarantine_hours_for_new Scenarios.quarantine_config = Some hours ∧
           0 < hours ∧ 86400 = hours * 3600 ∧
           allowed
             {| allowed := true; require_2fa := false;
                delay_seconds := Some 86400;
                warnings := [WhitelistSpec.new_address_warning Scenarios.tx0];
                required_actions := [];
                reason := "New address requires 24h quarantine" |} = true.
Proof.
  apply (whitelist_validated_delay Scenarios.quarantine_config
           (policy_context Scenarios.tx0)).
  - reflexivity.
  - reflexivity.
  - reflexivity.
Defined.

Lemma velocity_validated (cfg : Config) :
  VelocityRule.validate_config cfg = []
  ↔ (∀ l, max_daily_usd cfg = Some l → (0 < l)%Qc) ∧
    (∀ l, max_per_tx_usd cfg = Some l → (0 < l)%Qc).
Proof.
  unfold VelocityRule.validate_config.
  destruct (max_daily_usd cfg) as [daily|], (max_per_tx_usd cfg) as [per_tx|];
    repeat case_bool_decide; cbn; split;
    try discriminate; try done;
    try (intros _; split; intros ? [= <-]; by apply Qcnot_le_lt);
    intros [Hdaily Hper_tx]; exfalso;
    try (specialize (Hdaily _ eq_refl)); try (specialize (Hper_tx _ eq_refl));
    repeat match goal with
           | Hle : (?x <= 0)%Qc, Hlt : (0 < ?x)%Qc |- _ =>
               by apply Qcle_not_lt in Hle
           end.
Qed.

(** X14. [validate_config] accepts a velocity configuration exactly when
    each limit it sets is positive; and a rule with an accepted
    configuration never refuses a transaction of amount 0 on a day without
    outflow. *)
Theorem velocity_validated_zero_amount `{Runtime} (cfg : Config) :
  (VelocityRule.validate_config cfg = []
   ↔ (∀ l, max_daily_usd cfg = Some l → (0 < l)%Qc) ∧
     (∀ l, max_per_tx_usd cfg = Some l → (0 < l)%Qc)) ∧
  (VelocityRule.validate_config cfg = [] →
   ∀ context,
     value_usd (transaction context) = 0%Qc →
     daily_outflow_usd (transaction context) = 0%Qc →
     ∃ d, VelocityRule.evaluate cfg context = Returns d ∧ allowed d = true).
Proof.
  split; [apply velocity_validated|].
  intros Hvalid context Hvalue Hdaily.
  apply velocity_validated in Hvalid as [Hmax_daily Hmax_per_tx].
  unfold VelocityRule.evaluate. rewrite Hvalue, Hdaily.
  assert (Decimal.gt 0%Qc (from_option Finite Infinity (max_per_tx_usd cfg))
          = false) as ->.
  { apply not_true_iff_false. rewrite Decimal_gt_exceeds.
    intros (l & Hl & Hlt). specialize (Hmax_per_tx l Hl).
    by apply Qclt_not_le in Hlt; apply Hlt, Qclt_le_weak. }
  assert (Decimal.gt (0 + 0)%Qc
            (from_option Finite Infinity (max_daily_usd cfg)) = false) as ->.
  { apply not_true_iff_false. rewrite Decimal_gt_exceeds.
    intros (l & Hl & Hlt). specialize (Hmax_daily l Hl).
    rewrite Qcplus_0_l in Hlt.
    by apply Qclt_not_le in Hlt; apply Hlt, Qclt_le_weak. }
  destruct (delay_hours_above_usd cfg) as [dt|],
    (require_2fa_above_usd cfg) as [ft|];
    repeat match goal with
           | |- context [Decimal.gt ?v ?l] => destruct (Decimal.gt v l)
           end; by eexists.
Qed.

Lemma velocity_validated_zero_amount_witness :
  ∃ d, @VelocityRule.evaluate Scenarios.runtime Scenarios.velocity_config
         (policy_context Scenarios.idle_tx) = Returns d ∧ allowed d = true.
Proof.
  apply (proj2 (@velocity_validated_zero_amount Scenarios.runtime
                  Scenarios.velocity_config)).
  - reflexivity.
  - reflexivity.
  - reflexivity.
Defined.

(** ** The limits on display *)

Lemma contribution_configured (key : Config → option Qc) (policy : Policy)
    (q : Qc) :
  LimitsSpec.contribution key policy = Some q
  ↔ policy_is_active policy ≠ Some false ∧
    policy_rule_type policy = Some "velocity" ∧
    key (default empty_config (policy_config policy)) = Some q ∧
    q ≠ 0%Qc.
Proof.
  unfold LimitsSpec.contribution, truthy_number.
  assert (negb (default true (policy_is_active policy)) = false
          ↔ policy_is_active policy ≠ Some false) as Hactive.
  { destruct (policy_is_active policy) as [[]|]; cbn; split; done. }
  destruct (negb (default true (policy_is_active policy))).
  { split; [done|]. intros (Hon & _). apply Hactive in Hon. done. }
  assert (policy_is_active policy ≠ Some false) as Hon by by apply Hactive.
  case_bool_decide as Htype.
  2: { split; [done|]. by intros (_ & ? & _). }
  destruct (key _) as [q'|].
  2: { split; [done|]. by intros (_ & _ & ? & _). }
  case_bool_decide as Hzero; cbn.
  - split; [done|]. intros (_ & _ & [= ->] & ?). done.
  - split.
    + intros [= ->]. done.
    + by intros (_ & _ & [= ->] & _).
Qed.

(** The three amounts of the loop of [get_applicable_limits] are running
    minima of the contributions of the records. *)
Lemma limits_step_amounts (st : LimitsState) (policy : Policy) :
  let st' := PolicyEvaluator.limits_step st policy in
  let update key a :=
    match LimitsSpec.contribution key policy with
    | Some v => Decimal.min a v
    | None => a
    end in
  st_daily_limit_usd st' = update max_daily_usd (st_daily_limit_usd st) ∧
  st_per_tx_limit_usd st' = update max_per_tx_usd (st_per_tx_limit_usd st) ∧
  st_requires_2fa_above_usd st'
  = update require_2fa_above_usd (st_requires_2fa_above_usd st).
Proof.
  cbn zeta. unfold PolicyEvaluator.limits_step, LimitsSpec.contribution.
  destruct (negb (default true (policy_is_active policy))); [done|].
  case_bool_decide as Hvelocity.
  - unfold truthy_number.
    destruct (max_daily_usd _) as [a|], (max_per_tx_usd _) as [b|],
      (require_2fa_above_usd _) as [c|]; cbn;
      repeat case_bool_decide; cbn; done.
  - repeat case_bool_decide; try done; repeat case_match; done.
Qed.

Lemma running_min_least (key : Config → option Qc) (policies : list Policy)
    (start : Decimal) :
  let final :=
    foldl (λ a policy,
             match LimitsSpec.contribution key policy with
             | Some v => Decimal.min a v
             | None => a
             end) start policies in
  match final with
  | Finite m =>
      (start = Finite m ∨ LimitsSpec.configured key policies m) ∧
      (∀ x, start = Finite x → (m <= x)%Qc) ∧
      (∀ q, LimitsSpec.configured key policies q → (m <= q)%Qc)
  | Infinity =>
      start = Infinity ∧ ∀ q, ¬ LimitsSpec.configured key policies q
  end.
Proof.
  cbn zeta. revert start.
  induction policies as [|policy policies IH]; intros start; cbn [foldl].
  { destruct start as [x|].
    - split_and!; [by left|by intros ? [= ->]|].
      intros q (p & Hin & _). by inversion Hin.
    - split; [done|]. intros q (p & Hin & _). by inversion Hin. }
  assert (∀ q, LimitsSpec.configured key (policy :: policies) q
               ↔ LimitsSpec.contribution key policy = Some q ∨
                 LimitsSpec.configured key policies q) as Hcons.
  { intros q. rewrite contribution_configured.
    unfold LimitsSpec.configured. split.
    - intros (p & Hin & Hp). apply elem_of_cons in Hin as [->|Hin];
        [by left|right; by exists p].
    - intros [Hp|(p & Hin & Hp)];
        [exists policy; split; [left|done]|exists p; split; [by right|done]]. }
  set (next := match LimitsSpec.contribution key policy with
               | Some v => Decimal.min start v
               | None => start
               end).
  specialize (IH next).
  assert (match LimitsSpec.contribution key policy with
          | Some v =>
              ∃ n, next = Finite n ∧ (n <= v)%Qc ∧
                   (n = v ∨ start = Finite n) ∧
                   ∀ x, start = Finite x → (n <= x)%Qc
          | None => next = start
          end) as Hnext.
  { subst next. destruct (LimitsSpec.contribution key policy) as [v|]; [|done].
    destruct start as [x|]; cbn.
    - case_bool_decide as Hlt.
      + exists v. split_and!; [done|done|by left|].
        intros ? [= <-]. by apply Qclt_le_weak.
      + exists x. apply Qcnot_lt_le in Hlt.
        split_and!; [done|done|by right|by intros ? [= <-]].
    - exists v. split_and!; [done|done|by left|done]. }
  destruct (foldl _ next policies) as [m|].
  - destruct IH as (Hfrom & Hle_next & Hle_rest).
    destruct (LimitsSpec.contribution key policy) as [v|] eqn:Hv.
    + destruct Hnext as (n & Hn & Hnv & Horigin & Hnx).
      specialize (Hle_next n Hn).
      split_and!.
      * destruct Hfrom as [Hm|Hm]; [|right; apply Hcons; by right].
        rewrite Hn in Hm. injection Hm as <-.
        destruct Horigin as [->|Hs]; [right; apply Hcons; by left|by left].
      * intros x Hx. specialize (Hnx x Hx). by eapply Qcle_trans.
      * intros q [Hq|Hq]%Hcons; [|by apply Hle_rest].
        injection Hq as <-. by eapply Qcle_trans.
    + rewrite Hnext in *. split_and!.
      * destruct Hfrom as [Hm|Hm]; [by left|right; apply Hcons; by right].
      * done.
      * intros q [Hq|Hq]%Hcons; [done|by apply Hle_rest].
  - destruct IH as (Hnext_inf & Hnone).
    destruct (LimitsSpec.contribution key policy) as [v|] eqn:Hv.
    + destruct Hnext as (n & Hn & _). congruence.
    + rewrite Hnext in Hnext_inf. split; [done|].
      intros q [Hq|Hq]%Hcons; [done|by eapply Hnone].
Qed.

Lemma limits_loop_amounts (policies : list Policy) (st : LimitsState) :
  let final := foldl PolicyEvaluator.limits_step st policies in
  let run key start :=
    foldl (λ a policy,
             match LimitsSpec.contribution key policy with
             | Some v => Decimal.min a v
             | None => a
             end) start policies in
  st_daily_limit_usd final = run max_daily_usd (st_daily_limit_usd st) ∧
  st_per_tx_limit_usd final = run max_per_tx_usd (st_per_tx_limit_usd st) ∧
  st_requires_2fa_above_usd final
  = run require_2fa_above_usd (st_requires_2fa_above_usd st).
Proof.
  cbn zeta. revert st.
  induction policies as [|policy policies IH]; intros st; cbn [foldl]; [done|].
  destruct (IH (PolicyEvaluator.limits_step st policy)) as (-> & -> & ->).
  by destruct (limits_step_amounts st policy) as (-> & -> & ->).
Qed.

Lemma shown_least_configured (key : Config → option Qc)
    (policies : list Policy) :
  LimitsSpec.least_configured key policies
    (PolicyEvaluator.inf_to_None
       (foldl (λ a policy,
                 match LimitsSpec.contribution key policy with
                 | Some v => Decimal.min a v
                 | None => a
                 end) Infinity policies)).
Proof.
  pose proof (running_min_least key policies Infinity) as Hmin.
  cbn zeta in Hmin. destruct (foldl _ Infinity policies) as [m|]; cbn.
  - destruct Hmin as ([?|?] & _ & ?); done.
  - by destruct Hmin.
Qed.

Lemma get_applicable_limits_shown (self : PolicyEvaluator)
    (user_tier : string) (policies : list Policy) :
  let limits := PolicyEvaluator.get_applicable_limits self user_tier policies in
  LimitsSpec.least_configured max_daily_usd policies (daily_limit_usd limits) ∧
  LimitsSpec.least_configured max_per_tx_usd policies
    (per_tx_limit_usd limits) ∧
  LimitsSpec.least_configured require_2fa_above_usd policies
    (requires_2fa_above_usd limits).
Proof.
  cbn zeta. unfold PolicyEvaluator.get_applicable_limits.
  cbn [daily_limit_usd per_tx_limit_usd requires_2fa_above_usd].
  destruct (limits_loop_amounts policies
    {| st_daily_limit_usd := Infinity; st_per_tx_limit_usd := Infinity;
       st_requires_2fa_above_usd := Infinity; st_blocked_hours := [];
       st_whitelist_mode := None |}) as (-> & -> & ->).
  cbn [st_daily_limit_usd st_per_tx_limit_usd st_requires_2fa_above_usd].
  split_and!; apply shown_least_configured.
Qed.

(** X15. Each amount that [get_applicable_limits] shows (daily limit,
    per-transaction limit, 2FA threshold) is the least of the amounts other
    than 0 that the active velocity records set for it, and is absent
    exactly when no such record sets one; records that are inactive or of
    another type, and amounts of 0, do not count.  Appending records can
    only lower an amount on display or leave it. *)
Theorem get_applicable_limits_least (self : PolicyEvaluator)
    (user_tier : string) (policies more : list Policy) :
  let limits := PolicyEvaluator.get_applicable_limits self user_tier policies in
  let longer :=
    PolicyEvaluator.get_applicable_limits self user_tier (policies ++ more) in
  LimitsSpec.least_configured max_daily_usd policies (daily_limit_usd limits) ∧
  LimitsSpec.least_configured max_per_tx_usd policies
    (per_tx_limit_usd limits) ∧
  LimitsSpec.least_configured require_2fa_above_usd policies
    (requires_2fa_above_usd limits) ∧
  (∀ m, per_tx_limit_usd limits = Some m →
        ∃ m', per_tx_limit_usd longer = Some m' ∧ (m' <= m)%Qc) ∧
  (∀ m, daily_limit_usd limits = Some m →
        ∃ m', daily_limit_usd longer = Some m' ∧ (m' <= m)%Qc).
Proof.
  intros limits longer.
  destruct (get_applicable_limits_shown self user_tier policies)
    as (Hdaily & Hper_tx & H2fa).
  destruct (get_applicable_limits_shown self user_tier (policies ++ more))
    as (Hdaily' & Hper_tx' & _).
  fold limits in Hdaily, Hper_tx, H2fa. fold longer in Hdaily', Hper_tx'.
  assert (∀ key shown shown' m,
    LimitsSpec.least_configured key policies shown →
    LimitsSpec.least_configured key (policies ++ more) shown' →
    shown = Some m → ∃ m', shown' = Some m' ∧ (m' <= m)%Qc) as Hlower.
  { intros key shown shown' m Hshown Hshown' ->. destruct Hshown as [Hconf _].
    assert (LimitsSpec.configured key (policies ++ more) m) as Hconf'.
    { destruct Hconf as (policy & Hin & Hrest). exists policy.
      split; [|done]. apply elem_of_app. by left. }
    destruct shown' as [m'|]; cbn in Hshown'.
    - exists m'. split; [done|]. by apply Hshown'.
    - by apply Hshown' in Hconf'. }
  split_and!; try done.
  - intros m. by apply (Hlower max_per_tx_usd).
  - intros m. by apply (Hlower max_daily_usd).
Qed.

(** The limits of the unit-test policy with a lower limit switched off. *)
Example get_applicable_limits_scenario :
  let limits :=
    PolicyEvaluator.get_applicable_limits Scenarios.evaluator "humpback"
      Scenarios.limit_policies in
  daily_limit_usd limits = Some (Scenarios.usd 50000) ∧
  per_tx_limit_usd limits = Some (Scenarios.usd 25000) ∧
  requires_2fa_above_usd limits = Some (Scenarios.usd 10000) ∧
  blocked_hours limits = [] ∧
  whitelist_mode limits = Some "block_unknown".
Proof. split_and!; vm_compute; reflexivity. Qed.



Lemma velocity_over_limit_refuses `{Runtime} (cfg : Config)
    (context : PolicyContext) :
  VelocitySpec.over_per_tx cfg (transaction context) ∨
  VelocitySpec.over_daily cfg (transaction context) →
  ∃ d, VelocityRule.evaluate cfg context = Returns d ∧ allowed d = false.
Proof.
  unfold VelocitySpec.over_per_tx, VelocitySpec.over_daily.
  rewrite <- !Decimal_gt_exceeds. unfold VelocityRule.evaluate.
  intros [->| ->]; [by eexists|].
  destruct (Decimal.gt (value_usd _) _); by eexists.
Qed.



(** On that input the per-transaction limit on display is 25000 and the
    transaction of 30000 is blocked. *)
Example displayed_limits_scenario :
  decision
    (snd (PolicyEvaluator.evaluate_transaction Scenarios.evaluator "user123"
            "humpback" Scenarios.limit_policies "ethereum" "0x123"
            (Scenarios.usd 30000) (Scenarios.usd 0) false false false false
            Scenarios.monday_noon)) = BLOCK.
Proof. vm_compute. reflexivity. Qed.

(** ** Refusals of the velocity rule *)

Lemma velocity_refuses_iff `{Runtime} (cfg : Config) (context : PolicyContext) :
  (∃ d, VelocityRule.evaluate cfg context = Returns d ∧ allowed d = false)
  ↔ VelocitySpec.over_per_tx cfg (transaction context) ∨
    VelocitySpec.over_daily cfg (transaction context).
Proof.
  split; [|apply velocity_over_limit_refuses].
  unfold VelocitySpec.over_per_tx, VelocitySpec.over_daily.
  rewrite <- !Decimal_gt_exceeds. unfold VelocityRule.evaluate.
  destruct (Decimal.gt (value_usd _) (from_option _ _ (max_per_tx_usd cfg)));
    [by left|].
  destruct (Decimal.gt (_ + _)%Qc _); [by right|].
  intros (d & Hd & Hrefused). exfalso.
  destruct (delay_hours_above_usd cfg), (require_2fa_above_usd cfg);
    repeat match type of Hd with
           | context [Decimal.gt ?v ?l] => destruct (Decimal.gt v l)
           end;
    injection Hd as <-; discriminate.
Qed.

(** X17. The refusals of a velocity rule are closed upwards: a rule that
    refuses a transaction refuses every transaction that differs from it by
    an amount and a daily outflow that are not smaller. *)
Theorem velocity_refusals_upward_closed `{Runtime} (cfg : Config)
    (tx : TransactionContext) (v v' outflow outflow' : Qc)
    (d : PolicyDecision) :
  (v <= v')%Qc → (outflow <= outflow')%Qc →
  VelocityRule.evaluate cfg (policy_context (with_amounts tx v outflow))
    = Returns d →
  allowed d = false →
  ∃ d', VelocityRule.evaluate cfg
          (policy_context (with_amounts tx v' outflow')) = Returns d' ∧
        allowed d' = false.
Proof.
  intros Hv Houtflow Hd Hrefused.
  apply velocity_refuses_iff.
  assert (VelocitySpec.over_per_tx cfg (with_amounts tx v outflow) ∨
          VelocitySpec.over_daily cfg (with_amounts tx v outflow)) as Hover.
  { apply (velocity_refuses_iff cfg (policy_context (with_amounts tx v outflow))).
    by exists d. }
  cbn [transaction policy_context].
  destruct Hover as [(l & Hl & Hlt)|(l & Hl & Hlt)]; [left|right];
    exists l; (split; [done|]);
    cbn [value_usd daily_outflow_usd with_amounts] in *.
  - by eapply Qclt_le_trans.
  - eapply Qclt_le_trans; [exact Hlt|]. by apply Qcplus_le_compat.
Qed.

Lemma velocity_refusals_upward_closed_witness :
  ∃ d', @VelocityRule.evaluate Scenarios.runtime Scenarios.velocity_config
          (policy_context
             (with_amounts Scenarios.tx0 (Scenarios.usd 40000)
                (Scenarios.usd 20000))) = Returns d' ∧
        allowed d' = false.
Proof.
  apply (@velocity_refusals_upward_closed Scenarios.runtime
           Scenarios.velocity_config Scenarios.tx0
           (Scenarios.usd 30000) (Scenarios.usd 40000)
           (Scenarios.usd 10000) (Scenarios.usd 20000)
           (PolicyDecision.block
              "Transaction amount $30000 exceeds per-transaction limit of $25000")).
  - vm_compute. discriminate.
  - vm_compute. discriminate.
  - vm_compute. reflexivity.
  - reflexivity.
Defined.

(** ** The windows on display *)




